(** * EdPy token assembler: high-level line parsing ([src/lib/hl_parser.py])

    A shallow embedding of the device/location symbol table, the numeric
    literal parser, the module/register resolver and the line tokenizer,
    followed by the properties of the natural-language specification.

    Python values are embedded as follows.
    - [str] (a Python 2 byte string) is [string]; one character is [ascii].
    - [int] is [Z] (unbounded).
    - a [dict] with string keys is a [gmap string _].
    - the module globals [devices] and [locations] form the record [table],
      threaded through the functions that write them.
    - a raised exception is a value of [exn]; a computation that may raise
      returns [result]. *)

From Stdlib Require Import ZArith Ascii String List Bool Lia.
From stdpp Require Import base option strings gmap list pretty.

Import ListNotations.
Local Open Scope string_scope.
Local Open Scope Z_scope.

(** ** Exceptions *)

(** [AsmError_NO_RET(number, internalError)] hands the message and the error
    number to the output sink [io.Out] and raises; it never returns, so the
    [return] statements that follow its calls are not reached.
    [AssemblerError number internalError] stands for leaving through that
    call: it records the number and the message reported, which identify
    the failure.  The [raise] statement names [program.AssemblerError] and
    the module does not import [program], so the exception object that
    propagates from the call is Python's [NameError]; the statements below
    identify such a failure by its number and message, never by the class
    of the exception.  The other constructors are the built-in exceptions
    that the modelled code itself raises. *)
Inductive exn : Type :=
| AssemblerError (number : Z) (internalError : string)
| KeyError (key : string)
| IndexError
| ValueError (text : string)
| TypeError
| AttributeError.

Inductive result (A : Type) : Type :=
| Ok (a : A)
| Raise (e : exn).
Arguments Ok {A} a.
Arguments Raise {A} e.

Definition rbind {A B} (r : result A) (k : A -> result B) : result B :=
  match r with
  | Ok a => k a
  | Raise e => Raise e
  end.

Declare Scope py_scope.
Delimit Scope py_scope with py.
Notation "'let?' x := r 'in' k" := (rbind r (fun x => k))
  (at level 10, x pattern, r at level 100, k at level 200) : py_scope.
Local Open Scope py_scope.

(** The spec's names for the error numbers of the source. *)
Definition UnknownDeviceType : Z := 200.
Definition SlotOutOfRange : Z := 201.
Definition SlotAlreadyUsed : Z := 202.
Definition ReservedNameCollision : Z := 203.
Definition NameAlreadyUsed : Z := 204.
Definition InvalidTrackerPlacement : Z := 205.
Definition MotorSecondarySlotConflict : Z := 206.
Definition QuotingError : Z := 211.
Definition UnknownModuleReference : Z := 213.
Definition UnknownRegisterReference : Z := 214.
(** [MalformedAddressSyntax] covers two numbers (212: several colons,
    215: no colon); [TokenKindMismatch] covers 207, 208 and 210. *)
Definition MalformedAddressSyntax (n : Z) : bool := (n =? 212) || (n =? 215).
Definition TokenKindMismatch (n : Z) : bool :=
  (n =? 207) || (n =? 208) || (n =? 210).

(** ** Python string primitives *)

Definition dquote : ascii := "034"%char.
Definition squote : ascii := "039"%char.
Definition backslash : ascii := "092"%char.
Definition newline : ascii := "010"%char.
Definition tab : ascii := "009"%char.

Definition chr1 (c : ascii) : string := String c EmptyString.

(** [len(s)] *)
Definition len (s : string) : Z := Z.of_nat (String.length s).

(** [s.startswith(p)] and [s.endswith(p)] *)
Definition startswith (s p : string) : bool := String.prefix p s.

Fixpoint rev_string (s : string) : string :=
  match s with
  | EmptyString => EmptyString
  | String c s' => rev_string s' +:+ chr1 c
  end.

Definition endswith (s p : string) : bool :=
  String.prefix (rev_string p) (rev_string s).

(** [needle in hay] for two strings: substring test. *)
Fixpoint str_contains (needle hay : string) : bool :=
  String.prefix needle hay ||
  match hay with
  | EmptyString => false
  | String _ hay' => str_contains needle hay'
  end.

(** [c in s] for a character [c]. *)
Fixpoint char_in (c : ascii) (s : string) : bool :=
  match s with
  | EmptyString => false
  | String d s' => Ascii.eqb c d || char_in c s'
  end.

(** [s[1:]] *)
Definition drop_first (s : string) : string :=
  match s with
  | EmptyString => EmptyString
  | String _ s' => s'
  end.

(** [s[:-n]] for [n > 0] *)
Definition drop_last (n : nat) (s : string) : string :=
  String.substring 0 (String.length s - n) s.

(** [s[1:-1]] *)
Definition strip_ends (s : string) : string := drop_last 1 (drop_first s).

(** [s.lower()] on a byte string *)
Definition lower_char (c : ascii) : ascii :=
  let n := nat_of_ascii c in
  if (65 <=? n)%nat && (n <=? 90)%nat then ascii_of_nat (n + 32) else c.

Fixpoint lower (s : string) : string :=
  match s with
  | EmptyString => EmptyString
  | String c s' => String (lower_char c) (lower s')
  end.

(** [ord(s)]: defined on strings of length one only. *)
Definition ord (s : string) : result Z :=
  match s with
  | String c EmptyString => Ok (Z.of_nat (nat_of_ascii c))
  | _ => Raise TypeError
  end.

(** [string.hexdigits] *)
Definition hexdigits : string := "0123456789abcdefABCDEF".

(** [s[i]] with Python's negative indices. *)
Definition str_index (s : string) (i : Z) : result string :=
  let n := len s in
  let j := if i <? 0 then i + n else i in
  if (j <? 0) || (n <=? j) then Raise IndexError
  else match String.get (Z.to_nat j) s with
       | Some c => Ok (chr1 c)
       | None => Raise IndexError
       end.

(** [s.split(sep, maxsplit)] for a one-character separator. *)
Fixpoint split_at (sep : ascii) (s : string) : string * option string :=
  match s with
  | EmptyString => (EmptyString, None)
  | String c s' =>
      if Ascii.eqb c sep then (EmptyString, Some s')
      else let '(h, r) := split_at sep s' in (String c h, r)
  end.

Fixpoint split (sep : ascii) (maxsplit : nat) (s : string) {struct maxsplit}
  : list string :=
  match maxsplit with
  | O => [s]
  | S m =>
      match split_at sep s with
      | (h, None) => [h]
      | (h, Some r) => h :: split sep m r
      end
  end.

(** ** Dictionaries *)

(** [k in d] and [d[k]] for a dict with string keys. *)
Definition py_in {V} (k : string) (d : gmap string V) : bool :=
  match d !! k with
  | Some _ => true
  | None => false
  end.

Definition subscript {V} (d : gmap string V) (k : string) : result V :=
  match d !! k with
  | Some v => Ok v
  | None => Raise (KeyError k)
  end.

(** ** Static tables *)

Definition device_types : gmap string Z :=
  list_to_map
    [("tracker", 4); ("irtx", 5); ("irrx", 6); ("beeper", 7);
     ("motor-a", 8); ("motor-b", 9); ("led", 10)].

Definition device_storage : gmap string Z :=
  list_to_map
    [("tracker", 4 + 0); ("irtx", 2 + 0); ("irrx", 5 + 0); ("beeper", 7 + 0);
     ("motor-a", 5 + 4); ("motor-b", 5 + 4); ("led", 4 + 0)].

Definition special_names : list string :=
  ["_index"; "_devices"; "_timers"; "_cpu"].


Definition reset_devices : gmap string (string * Z) :=
  list_to_map
    [("_index", ("index", 12)); ("_devices", ("devices", 13));
     ("_timers", ("timers", 14)); ("_cpu", ("cpu", 15))].

Definition reset_locations : gmap string (string * Z) :=
  list_to_map
    [("c", ("index", 12)); ("d", ("devices", 13));
     ("e", ("timers", 14)); ("f", ("cpu", 15))].

(** Register name to (byte offset, byte size), per device type. *)
Definition registers : gmap string (gmap string (Z * Z)) :=
  list_to_map
    [("tracker",
      list_to_map [("status", (0, 1)); ("output", (1, 1));
                   ("lightlevel", (2, 2))]);
     ("led",
      list_to_map [("status", (0, 1)); ("output", (1, 1));
                   ("lightlevel", (2, 2))]);
     ("beeper",
      list_to_map [("status", (0, 1)); ("action", (1, 1)); ("freq", (2, 2));
                   ("duration", (4, 2)); ("tunecode", (6, 1));
                   ("tunestring", (7, 1)); ("tempo", (8, 2))]);
     ("irtx", list_to_map [("action", (0, 1)); ("char", (1, 1))]);
     ("irrx",
      list_to_map [("status", (0, 1)); ("action", (1, 1)); ("check", (2, 1));
                   ("match", (3, 1)); ("char", (4, 1))]);
     ("motor-a",
      list_to_map [("status", (0, 1)); ("control", (1, 1));
                   ("distance", (2, 2))]);
     ("motor-b",
      list_to_map [("status", (0, 1)); ("control", (1, 1));
                   ("distance", (2, 2))]);
     ("index",
      list_to_map [("action", (0, 1)); ("8b1cursor", (1, 1));
                   ("8b1step", (2, 1)); ("8b1window", (3, 1));
                   ("8b2cursor", (4, 1)); ("8b2step", (5, 1));
                   ("16b1cursor", (6, 1)); ("16b1step", (7, 1));
                   ("16b1window", (8, 2)); ("16b2cursor", (10, 1));
                   ("16b2step", (11, 1)); ("16b1temp", (12, 2));
                   ("16b2temp", (14, 2));
                   ("8b1local", (2, 1)); ("16b1local", (4, 2));
                   ("8b2local", (7, 1)); ("16b2local", (10, 2))]);
     ("devices", list_to_map [("status", (0, 1)); ("random", (1, 1))]);
     ("timers",
      list_to_map [("status", (0, 1)); ("action", (1, 1)); ("pause", (2, 2));
                   ("oneshot", (4, 2)); ("system", (6, 4))]);
     ("cpu",
      list_to_map [("acc", (0, 2)); ("flags", (2, 1)); ("counter", (3, 1));
                   ("pc", (4, 2)); ("sp", (6, 2))])].

(** ** The symbol table *)

(** The module globals [devices] (name to (type, location)) and [locations]
    (hex digit to (type, location)). *)
Record table : Type := mkTable {
  devices : gmap string (string * Z);
  locations : gmap string (string * Z)
}.

(** The state of the module when it has just been loaded. *)
Definition initial_table : table := mkTable ∅ ∅.

(** Computations that read and write the table and may raise: the table
    at the point of the raise is kept. *)
Definition M (A : Type) : Type := table -> result A * table.

Definition ret {A} (a : A) : M A := fun st => (Ok a, st).
Definition bind {A B} (m : M A) (k : A -> M B) : M B :=
  fun st =>
    match m st with
    | (Ok a, st') => k a st'
    | (Raise e, st') => (Raise e, st')
    end.
Definition lift {A} (r : result A) : M A := fun st => (r, st).
Definition get_devices : M (gmap string (string * Z)) :=
  fun st => (Ok (devices st), st).
Definition get_locations : M (gmap string (string * Z)) :=
  fun st => (Ok (locations st), st).
(** [devices[k] = v] and [locations[k] = v] *)
Definition set_device (k : string) (v : string * Z) : M unit :=
  fun st => (Ok tt, mkTable (<[k := v]> (devices st)) (locations st)).
Definition set_location (k : string) (v : string * Z) : M unit :=
  fun st => (Ok tt, mkTable (devices st) (<[k := v]> (locations st))).

Notation "'let!' x := m 'in' k" := (bind m (fun x => k))
  (at level 10, x pattern, m at level 100, k at level 200) : py_scope.
Notation "'do!' m 'in' k" := (bind m (fun _ => k))
  (at level 10, m at level 100, k at level 200) : py_scope.

Definition reset_devices_and_locations : M unit :=
  fun _ => (Ok tt, mkTable reset_devices reset_locations).

Definition AsmError_NO_RET {A} (number : Z) (internalError : string)
  : result A :=
  Raise (AssemblerError number internalError).

(** Truth value of a string: non-empty. *)
Definition truthy (s : string) : bool :=
  match s with
  | EmptyString => false
  | String _ _ => true
  end.

(** [name in l] for a list of strings and [name] a string or [None]. *)
Definition opt_in_list (name : option string) (l : list string) : bool :=
  match name with
  | Some n => existsb (String.eqb n) l
  | None => false
  end.

Definition opt_in_dict {V} (name : option string) (d : gmap string V) : bool :=
  match name with
  | Some n => py_in n d
  | None => false
  end.

Definition opt_truthy (name : option string) : bool :=
  match name with
  | Some n => truthy n
  | None => false
  end.

Definition is_motor (dtype : string) : bool :=
  String.eqb dtype "motor-a" || String.eqb dtype "motor-b".

(** The location a motor claims next to its own. *)
Definition motor_second_loc (loc : Z) : Z := if loc =? 11 then 0 else loc + 1.

(** The block of [add_device] under "motors need two spots": the second
    location is tested and claimed when the device is a motor. *)
Definition claim_motor_second (loc : Z) (dtype : string) : M unit :=
  if is_motor dtype then
    let motor_second_loc := motor_second_loc loc in
    let! motor_second_hex := lift (str_index hexdigits motor_second_loc) in
    let! locs := get_locations in
    match locs !! motor_second_hex with
    | Some occupant =>
        lift (AsmError_NO_RET 206
          ("Motors require two locations yet the second location is already used with a "
             +:+ fst occupant))
    | None => set_location motor_second_hex ("motor_second", motor_second_loc)
    end
  else ret tt.

Definition add_device (loc : Z) (dtype : string) (name : option string)
  : M bool :=
  if negb (py_in dtype device_types) then
    lift (AsmError_NO_RET 200 ("Unknown device type: " +:+ dtype))
  else if (loc <? 0) || (loc >? 11) then
    lift (AsmError_NO_RET 201
            ("Location (" +:+ pretty loc +:+ ") outside of 0 to 11"))
  else
    let! loc_hex := lift (str_index hexdigits loc) in
    let! locs := get_locations in
    match locs !! loc_hex with
    | Some occupant =>
        lift (AsmError_NO_RET 202
          ("Location (" +:+ pretty loc
             +:+ ") is already used with a unit of type: " +:+ fst occupant))
    | None =>
        let name := if opt_truthy name then option_map lower name else name in
        let! devs := get_devices in
        if opt_in_list name special_names then
          lift (AsmError_NO_RET 203
            "DEVICE name can not be one of the built-in names ['_index', '_devices', '_timers', '_cpu']")
        else if opt_in_dict name devs then
          lift (AsmError_NO_RET 204
            ("DEVICE name already used: " +:+ default "" name))
        else if String.eqb dtype "tracker" && negb (loc =? 0) then
          lift (AsmError_NO_RET 205
            ("A tracker device can only be located at 0, not location "
               +:+ pretty loc))
        else
          do! claim_motor_second loc dtype in
          do! set_location loc_hex (dtype, loc) in
          do! match name with
              | Some n => if truthy n then set_device n (dtype, loc) else ret tt
              | None => ret tt
              end in
          ret true
    end.

Definition get_location_type_and_size (location : Z) (st : table)
  : result (Z * Z) :=
  let? loc_hex := str_index hexdigits location in
  match locations st !! loc_hex with
  | Some (dtype, _) =>
      if negb (String.eqb dtype "motor_second") then
        let? code := subscript device_types dtype in
        let? size := subscript device_storage dtype in
        Ok (code, size)
      else Ok (0, 0)
  | None => Ok (0, 0)
  end.

Definition reset_table : table := mkTable reset_devices reset_locations.

(** ** The built-in [int(text, base)]

    CPython 2.7 on a byte string, for the bases the module uses (0, 2, 10
    and 16): optional white space, an optional sign, an optional base
    prefix ([0x], [0o], [0b]; with base 0 a leading [0] alone selects
    octal), digits of the base, optional white space.  Anything else is a
    [ValueError]. *)

Definition is_space (c : ascii) : bool :=
  let n := nat_of_ascii c in
  (n =? 32)%nat || ((9 <=? n)%nat && (n <=? 13)%nat).

Fixpoint skip_spaces (s : string) : string :=
  match s with
  | String c s' => if is_space c then skip_spaces s' else s
  | EmptyString => EmptyString
  end.

Definition digit_value (c : ascii) : option Z :=
  let n := nat_of_ascii c in
  if (48 <=? n)%nat && (n <=? 57)%nat then Some (Z.of_nat n - 48)
  else if (97 <=? n)%nat && (n <=? 122)%nat then Some (Z.of_nat n - 87)
  else if (65 <=? n)%nat && (n <=? 90)%nat then Some (Z.of_nat n - 55)
  else None.

Definition is_digit_of (base : Z) (c : ascii) : bool :=
  match digit_value c with
  | Some d => d <? base
  | None => false
  end.

(** Consume digits of [base]; returns the value, whether at least one digit
    was read, and the unread rest. *)
Fixpoint read_digits (base acc : Z) (seen : bool) (s : string)
  : Z * bool * string :=
  match s with
  | String c s' =>
      match digit_value c with
      | Some d =>
          if d <? base then read_digits base (acc * base + d) true s'
          else (acc, seen, s)
      | None => (acc, seen, s)
      end
  | EmptyString => (acc, seen, s)
  end.

Definition prefix_letter (base : Z) (c : ascii) : bool :=
  if base =? 16 then Ascii.eqb c "x" || Ascii.eqb c "X"
  else if base =? 8 then Ascii.eqb c "o" || Ascii.eqb c "O"
  else if base =? 2 then Ascii.eqb c "b" || Ascii.eqb c "B"
  else false.

Definition prefix_base (c : ascii) : option Z :=
  if Ascii.eqb c "x" || Ascii.eqb c "X" then Some 16
  else if Ascii.eqb c "o" || Ascii.eqb c "O" then Some 8
  else if Ascii.eqb c "b" || Ascii.eqb c "B" then Some 2
  else None.

(** The unsigned part: [None] when no number can be read here. *)
Definition read_unsigned (base : Z) (s : string) : option (Z * string) :=
  match s with
  | String "0" (String p (String d s')) =>
      match (if base =? 0 then prefix_base p
             else if prefix_letter base p then Some base else None) with
      | Some b =>
          if is_digit_of b d then
            let '(n, _, r) := read_digits b 0 false (String d s') in
            Some (n, r)
          else Some (0, String p (String d s'))
      | None =>
          let '(n, _, r) :=
            read_digits (if base =? 0 then 8 else base) 0 true
                        (String p (String d s')) in
          Some (n, r)
      end
  | String "0" s' =>
      let '(n, _, r) :=
        read_digits (if base =? 0 then 8 else base) 0 true s' in
      Some (n, r)
  | _ =>
      let '(n, seen, r) :=
        read_digits (if base =? 0 then 10 else base) 0 false s in
      if seen then Some (n, r) else None
  end.

Definition py_int (text : string) (base : Z) : result Z :=
  let s := skip_spaces text in
  let '(negative, s1) :=
    match s with
    | String "-" s' => (true, s')
    | String "+" s' => (false, s')
    | _ => (false, s)
    end in
  match read_unsigned base (skip_spaces s1) with
  | Some (n, r) =>
      match skip_spaces r with
      | EmptyString => Ok (if negative then - n else n)
      | String _ _ => Raise (ValueError text)
      end
  | None => Raise (ValueError text)
  end.

(** ** Tokens *)

(** The value of a token is a Python [int] or [str]. *)
Inductive value : Type :=
| VInt (n : Z)
| VStr (s : string).

Record word : Type := mkWord {
  type_ : string;
  value_ : value
}.

(** ** Numeric literal parser *)

(** [parse_bases(snum, string=False)].  Applied to an [int] the first
    attribute access [snum.startswith] raises. *)
Definition parse_bases (snum : value) (string_ : bool) : result Z :=
  match snum with
  | VInt _ => Raise AttributeError
  | VStr snum =>
      if startswith snum (chr1 squote) && endswith snum (chr1 squote) then
        ord (strip_ends snum)
      else if string_ && startswith snum (chr1 dquote)
                      && endswith snum (chr1 dquote) then
        AsmError_NO_RET 211 "Error - use single quotes for an ascii constant"
      else if endswith snum "/2" then py_int (drop_last 2 snum) 2
      else if endswith snum "/10" then py_int (drop_last 3 snum) 10
      else if endswith snum "/16" then py_int (drop_last 3 snum) 16
      else py_int snum 0
  end.

(** ** Module/register resolver *)

(** [s[i]] as a character, at an index known to be in range. *)
Definition char_at (i : nat) (s : string) : ascii :=
  match String.get i s with
  | Some c => c
  | None => "000"%char
  end.

Definition parse_mod_reg (smodreg : string) (st : table) : result Z :=
  if (len smodreg =? 2) && char_in (char_at 0 smodreg) hexdigits
                        && char_in (char_at 1 smodreg) hexdigits then
    py_int smodreg 16
  else if char_in ":" smodreg then
    match split ":" 2 (lower smodreg) with
    | [part0; part1] =>
        let? (dtype, loc) :=
          match devices st !! part0 with
          | Some d => Ok d
          | None =>
              match locations st !! part0 with
              | Some l => Ok l
              | None =>
                  AsmError_NO_RET 213
                    ("Didn't understand the module name/number: " +:+ part0)
              end
          end in
        let? regs := subscript registers dtype in
        match regs !! part1 with
        | Some reg => Ok (fst reg + Z.shiftl loc 4)
        | None =>
            if str_contains part1 "0123456789abcdef" then
              let? digit := py_int part1 16 in
              Ok (digit + Z.shiftl loc 4)
            else
              AsmError_NO_RET 214
                ("Didn't understand the register name/number: " +:+ part1)
        end
    | _ => AsmError_NO_RET 212 ("Invalid mod/reg syntax: " +:+ smodreg)
    end
  else
    AsmError_NO_RET 215
      ("Error - can't parse " +:+ smodreg +:+ " as a modreg").

(** ** Token value accessors *)

Definition num (w : word) : result Z := parse_bases (value_ w) false.

Definition anum (w : word) : result value :=
  if negb (existsb (String.eqb (type_ w)) ["arg"; "const"]) then
    AsmError_NO_RET 207 "Expected an argument or constant!"
  else if String.eqb (type_ w) "const" then Ok (value_ w)
  else let? n := parse_bases (value_ w) false in Ok (VInt n).

(** [string.ascii_letters + '_'] *)
Definition name_start_chars : string :=
  "abcdefghijklmnopqrstuvwxyzABCDEFGHIJKLMNOPQRSTUVWXYZ_".

(** [astr] returns [None] (no [return] is reached) on an empty value. *)
Definition astr (w : word) : result (option string) :=
  if negb (existsb (String.eqb (type_ w)) ["arg"; "string"]) then
    AsmError_NO_RET 208 "Expected an argument or string!"
  else
    match value_ w with
    | VInt _ => Raise TypeError
    | VStr s =>
        if len s >? 0 then
          if negb (char_in (char_at 0 s) name_start_chars) then
            AsmError_NO_RET 209 "Word should have been a valid name!"
          else Ok (Some s)
        else Ok None
    end.

Definition amodreg (w : word) (st : table) : result value :=
  if negb (existsb (String.eqb (type_ w)) ["arg"; "modreg"]) then
    AsmError_NO_RET 210 "Expected an argument or string!"
  else if String.eqb (type_ w) "modreg" then Ok (value_ w)
  else
    match value_ w with
    | VStr s => let? n := parse_mod_reg s st in Ok (VInt n)
    | VInt _ => Raise TypeError
    end.

(** ** Line tokenizer *)

(** State of the scan in [prechop_line]: the loop over the characters of
    the line, returning [components] and [comp] when it ends. *)
Fixpoint prechop_loop (line : string) (in_string : string) (in_escape : bool)
    (components : list string) (comp : string) : list string * string :=
  match line with
  | EmptyString => (components, comp)
  | String c rest =>
      if Ascii.eqb c newline then (components, comp)
      else if in_escape then
        prechop_loop rest in_string false components (comp +:+ chr1 c)
      else if truthy in_string && Ascii.eqb c backslash then
        prechop_loop rest in_string true components comp
      else if Ascii.eqb c "#" && negb (truthy in_string) then
        (components, comp)
      else if negb (truthy in_string) && Ascii.eqb c dquote then
        prechop_loop rest (chr1 c) in_escape components (comp +:+ chr1 c)
      else if truthy in_string && String.eqb (chr1 c) in_string then
        prechop_loop rest EmptyString in_escape components (comp +:+ chr1 c)
      else if negb (truthy in_string)
              && (Ascii.eqb c " " || Ascii.eqb c tab || Ascii.eqb c ",") then
        prechop_loop rest in_string in_escape
          (if truthy comp then components ++ [comp] else components)
          EmptyString
      else
        prechop_loop rest in_string in_escape components (comp +:+ chr1 c)
  end.

Definition prechop_line (line : string) : list string :=
  let '(components, comp) := prechop_loop line EmptyString false [] EmptyString in
  if truthy comp then components ++ [comp] else components.

(** How the loop of [chop_line] ended: all segments consumed, or left at
    the comment test. *)
Inductive loop_exit : Type :=
| Exhausted
| CommentBreak.

Fixpoint chop_loop (segs : list string) (words : list word) (st : table)
  : result (list word * loop_exit) :=
  match segs with
  | [] => Ok (words, Exhausted)
  | s :: segs' =>
      if negb (truthy s) then chop_loop segs' words st
      else if startswith s "#" then Ok (words, CommentBreak)
      else if startswith s ":" then
        chop_loop segs' (words ++ [mkWord "label" (VStr (drop_first s))]) st
      else if match words with [] => true | _ => false end then
        chop_loop segs' (words ++ [mkWord "op" (VStr s)]) st
      else if (startswith s (chr1 dquote) && endswith s (chr1 dquote))
              || (startswith s (chr1 squote) && endswith s (chr1 squote)) then
        if len s <=? 2 then chop_loop segs' words st
        else
          chop_loop segs' (words ++ [mkWord "string" (VStr (strip_ends s))]) st
      else if startswith s "$" then
        let? n :=
          if (len s =? 4) && Ascii.eqb (char_at 1 s) squote
                          && Ascii.eqb (char_at 3 s) squote then
            ord (chr1 (char_at 2 s))
          else parse_bases (VStr (drop_first s)) false in
        chop_loop segs' (words ++ [mkWord "const" (VInt n)]) st
      else if startswith s "%" then
        let? modreg := parse_mod_reg (drop_first s) st in
        chop_loop segs' (words ++ [mkWord "modreg" (VInt modreg)]) st
      else if startswith s ":" then
        chop_loop segs' (words ++ [mkWord "label" (VStr (drop_first s))]) st
      else if startswith s "@" then
        chop_loop segs' (words ++ [mkWord "var" (VStr (drop_first s))]) st
      else
        chop_loop segs' (words ++ [mkWord "arg" (VStr s)]) st
  end.

Definition chop_line (line : string) (st : table) : result (list word) :=
  let? (words, _) := chop_loop (prechop_line line) [] st in
  Ok words.

Definition say_line : string :=
  "say " +:+ chr1 dquote +:+ "hi, " +:+ chr1 backslash +:+ chr1 dquote
    +:+ "bob" +:+ chr1 backslash +:+ chr1 dquote +:+ chr1 dquote.

(** ** Definitions used by the statements *)

(** The table after [reset] and [DEVICE led, 3, Lamp]. *)
Definition lamp_table : table :=
  snd (add_device 3 "led" (Some "Lamp") reset_table).

(** The table after [reset] and a left motor declared at slot 11. *)
Definition motor_table : table :=
  snd (add_device 11 "motor-a" (Some "Left") reset_table).

(** The name under which a declaration is recorded: lower-cased when it is
    a non-empty string. *)
Definition recorded_name (name : option string) : option string :=
  if opt_truthy name then option_map lower name else name.

(** The table a successful declaration produces. *)
Definition declared (loc : Z) (dtype : string) (name : option string)
    (h h2 : string) (st : table) : table :=
  let locs :=
    if is_motor dtype
    then <[h2 := ("motor_second", motor_second_loc loc)]> (locations st)
    else locations st in
  mkTable
    (match recorded_name name with
     | Some n => if truthy n then <[n := (dtype, loc)]> (devices st)
                 else devices st
     | None => devices st
     end)
    (<[h := (dtype, loc)]> locs).

(** [declared_after st st']: [st'] is reached from [st] by further calls
    of [add_device], failed or not. *)
Inductive declared_after (st : table) : table -> Prop :=
| after_refl : declared_after st st
| after_step st1 loc dtype name r st2 :
    declared_after st st1 ->
    add_device loc dtype name st1 = (r, st2) ->
    declared_after st st2.

(** The text [hi, "bob"] and the double-quoted numeral ["12"]. *)
Definition hi_bob : string :=
  "hi, " +:+ chr1 dquote +:+ "bob" +:+ chr1 dquote.

Definition quoted_12 : string := chr1 dquote +:+ "12" +:+ chr1 dquote.

(** A segment that does not begin with [#]. *)
Definition no_hash (s : string) : Prop := startswith s "#" = false.

(** Whether the loop of [chop_line] was left at its comment test. *)
Definition stopped_at_comment (r : result (list word * loop_exit)) : bool :=
  match r with
  | Ok (_, CommentBreak) => true
  | _ => false
  end.

(** The tables the module can be in: as loaded, and after any sequence of
    [reset_devices_and_locations] and [add_device] calls. *)
Inductive reachable : table -> Prop :=
| reach_initial : reachable initial_table
| reach_reset st r st' :
    reachable st -> reset_devices_and_locations st = (r, st') -> reachable st'
| reach_add st loc dtype name r st' :
    reachable st -> add_device loc dtype name st = (r, st') -> reachable st'.

(** Every location holds the marker, a recognized device type, or one of
    the reserved bindings. *)
Definition locations_typed (st : table) : Prop :=
  forall k v,
    locations st !! k = Some v ->
    fst v = "motor_second" \/ is_Some (device_types !! fst v) \/
    reset_locations !! k = Some v.

(** ** Definitions used by the further properties *)

(** What the two maps record about each other: a location is stored under
    the hex digit of its own number; a device name is a non-empty
    lower-case string bound to a location that holds the same pair; and no
    two names share a location. *)
Definition table_consistent (st : table) : Prop :=
  (forall k dt n,
      locations st !! k = Some (dt, n) ->
      0 <= n <= 15 /\ str_index hexdigits n = Ok k) /\
  (forall name dt n,
      devices st !! name = Some (dt, n) ->
      truthy name = true /\ lower name = name /\
      exists h, str_index hexdigits n = Ok h /\
                locations st !! h = Some (dt, n)) /\
  (forall n1 n2 d1 d2 l,
      devices st !! n1 = Some (d1, l) ->
      devices st !! n2 = Some (d2, l) -> n1 = n2).

(** The characters that end a segment outside a string, and the ones that
    end the scan of the line. *)
Definition is_separator (c : ascii) : bool :=
  Ascii.eqb c " " || Ascii.eqb c tab || Ascii.eqb c ",".

Definition ends_scan (c : ascii) : bool :=
  Ascii.eqb c "#" || Ascii.eqb c newline.

Definition plain_char (c : ascii) : bool := negb (is_separator c || ends_scan c).

Fixpoint forall_chars (p : ascii -> bool) (s : string) : bool :=
  match s with
  | EmptyString => true
  | String c s' => p c && forall_chars p s'
  end.

(** A token whose value has the Python type its kind stands for: an
    integer for constants and module/register addresses, text otherwise. *)
Definition well_kinded (w : word) : bool :=
  match value_ w with
  | VInt _ => existsb (String.eqb (type_ w)) ["const"; "modreg"]
  | VStr _ => existsb (String.eqb (type_ w)) ["label"; "op"; "string"; "var"; "arg"]
  end.

(** The error number reported, when the computation left through a call
    of [AsmError_NO_RET]. *)
Definition asm_error_number (e : exn) : option Z :=
  match e with
  | AssemblerError number _ => Some number
  | _ => None
  end.


(** [format_word_list(wlist)]; [str_word] stands for [str(w)], the
    [__str__] method of [word]. *)
Definition format_word_list (str_word : word -> string) (wlist : list word)
  : string :=
  let output := "[" in
  let output :=
    fold_left (fun output w => output +:+ str_word w +:+ ", ") wlist output in
  let output :=
    match wlist with
    | [] => output
    | _ :: _ => drop_last 2 output
    end in
  output +:+ "]".

(** [", ".join(l)] *)
Fixpoint join_comma (l : list string) : string :=
  match l with
  | [] => EmptyString
  | [s] => s
  | s :: l' => s +:+ ", " +:+ join_comma l'
  end.

(** The operator, when there is one, is the first token; the first token
    is an operator or a label. *)
Definition operator_first (words : list word) : Prop :=
  match words with
  | [] => True
  | w :: rest =>
      (type_ w = "op" \/ type_ w = "label") /\
      Forall (fun w' => String.eqb (type_ w') "op" = false) rest
  end.



(** * Properties *)

(** ** Bus slots and their hex digits *)

Ltac each_slot loc :=
  let H := fresh "Hslot" in
  assert (loc = 0 \/ loc = 1 \/ loc = 2 \/ loc = 3 \/ loc = 4 \/ loc = 5 \/
          loc = 6 \/ loc = 7 \/ loc = 8 \/ loc = 9 \/ loc = 10 \/ loc = 11)
    as H by lia;
  repeat (destruct H as [H | H]); subst loc.

Lemma slot_hex_defined (loc : Z) :
  0 <= loc <= 11 -> exists h, str_index hexdigits loc = Ok h.
Proof. intros Hr. each_slot loc; eexists; reflexivity. Qed.

Lemma slot_hex_inj (a b : Z) (h : string) :
  0 <= a <= 11 -> 0 <= b <= 11 ->
  str_index hexdigits a = Ok h -> str_index hexdigits b = Ok h -> a = b.
Proof.
  intros Ha Hb E1 E2. rewrite <- E2 in E1. clear E2.
  each_slot a; each_slot b; vm_compute in E1; solve [reflexivity | discriminate].
Qed.

Lemma motor_second_slot (loc : Z) :
  0 <= loc <= 11 -> 0 <= motor_second_loc loc <= 11 /\ motor_second_loc loc <> loc.
Proof. unfold motor_second_loc. intros H. destruct (Z.eqb_spec loc 11); lia. Qed.

Lemma slot_not_reserved (loc : Z) (h : string) :
  0 <= loc <= 11 -> str_index hexdigits loc = Ok h -> reset_locations !! h = None.
Proof.
  intros Hr E. each_slot loc; vm_compute in E; inversion E; subst h; reflexivity.
Qed.

Lemma device_types_cases (dtype : string) (code : Z) :
  device_types !! dtype = Some code ->
  (dtype, code) ∈ [("tracker", 4); ("irtx", 5); ("irrx", 6); ("beeper", 7);
                   ("motor-a", 8); ("motor-b", 9); ("led", 10)].
Proof. intros H. apply elem_of_list_to_map_2 in H. exact H. Qed.

Lemma device_storage_defined (dtype : string) (code : Z) :
  device_types !! dtype = Some code ->
  exists size, device_storage !! dtype = Some size.
Proof.
  intros H. apply device_types_cases in H.
  repeat (apply elem_of_cons in H; destruct H as [H | H];
          [inversion H; subst; eexists; reflexivity |]).
  apply elem_of_nil in H. destruct H.
Qed.

Lemma py_in_true {V} (k : string) (d : gmap string V) :
  py_in k d = true <-> is_Some (d !! k).
Proof.
  unfold py_in. destruct (d !! k); split; intros H; try reflexivity;
    try (eexists; reflexivity); try discriminate. destruct H; discriminate.
Qed.

(** ** Declaring a device *)

Lemma add_device_raise_unchanged loc dtype name st e st' :
  add_device loc dtype name st = (Raise e, st') -> st' = st.
Proof.
  unfold add_device, claim_motor_second, bind, lift, get_locations, get_devices,
    set_location, set_device, ret, AsmError_NO_RET.
  destruct (negb (py_in dtype device_types)); [intros H; inversion H; reflexivity |].
  destruct ((loc <? 0) || (loc >? 11)); [intros H; inversion H; reflexivity |].
  destruct (str_index hexdigits loc) as [h | e0]; [| intros H; inversion H; reflexivity].
  destruct (locations st !! h); [intros H; inversion H; reflexivity |].
  destruct (opt_in_list _ special_names); [intros H; inversion H; reflexivity |].
  destruct (opt_in_dict _ (devices st)); [intros H; inversion H; reflexivity |].
  destruct (String.eqb dtype "tracker" && negb (loc =? 0));
    [intros H; inversion H; reflexivity |].
  destruct (is_motor dtype).
  - destruct (str_index hexdigits (motor_second_loc loc)) as [h2 | e2];
      [| intros H; inversion H; reflexivity].
    destruct (locations st !! h2); [intros H; inversion H; reflexivity |].
    cbn. destruct (if opt_truthy name then option_map lower name else name) as [n |];
      [destruct (truthy n) |]; cbn; intros H; discriminate.
  - cbn. destruct (if opt_truthy name then option_map lower name else name) as [n |];
      [destruct (truthy n) |]; cbn; intros H; discriminate.
Qed.

Lemma add_device_ok_inv loc dtype name st b st' :
  add_device loc dtype name st = (Ok b, st') ->
  b = true /\ is_Some (device_types !! dtype) /\ 0 <= loc <= 11 /\
  exists h h2,
    str_index hexdigits loc = Ok h /\
    str_index hexdigits (motor_second_loc loc) = Ok h2 /\
    locations st !! h = None /\
    (is_motor dtype = true -> locations st !! h2 = None) /\
    st' = declared loc dtype name h h2 st.
Proof.
  unfold add_device, claim_motor_second, bind, lift, get_locations, get_devices,
    set_location, set_device, ret, AsmError_NO_RET, declared, recorded_name.
  destruct (py_in dtype device_types) eqn:Ety; cbn [negb]; [| intros H; discriminate].
  apply py_in_true in Ety.
  destruct ((loc <? 0) || (loc >? 11)) eqn:Erange; [intros H; discriminate |].
  assert (0 <= loc <= 11) as Hr by lia.
  destruct (slot_hex_defined _ (proj1 (motor_second_slot loc Hr))) as [h2 Eh2].
  destruct (str_index hexdigits loc) as [h | e0]; [| intros H; discriminate].
  destruct (locations st !! h) eqn:Efree; [intros H; discriminate |].
  destruct (opt_in_list _ special_names); [intros H; discriminate |].
  destruct (opt_in_dict _ (devices st)); [intros H; discriminate |].
  destruct (String.eqb dtype "tracker" && negb (loc =? 0));
    [intros H; discriminate |].
  rewrite Eh2.
  destruct (is_motor dtype).
  - destruct (locations st !! h2) eqn:Efree2; [intros H; discriminate |].
    cbn. destruct (if opt_truthy name then option_map lower name else name) as [n |];
      [destruct (truthy n) |]; cbn; intros H; inversion H; subst;
      (split; [reflexivity |]); (split; [exact Ety |]); (split; [exact Hr |]);
      exists h, h2; repeat split; auto.
  - cbn. destruct (if opt_truthy name then option_map lower name else name) as [n |];
      [destruct (truthy n) |]; cbn; intros H; inversion H; subst;
      (split; [reflexivity |]); (split; [exact Ety |]); (split; [exact Hr |]);
      exists h, h2; repeat split; auto; intros; discriminate.
Qed.

Lemma add_device_occupied loc dtype name st h occupant :
  is_Some (device_types !! dtype) -> 0 <= loc <= 11 ->
  str_index hexdigits loc = Ok h -> locations st !! h = Some occupant ->
  add_device loc dtype name st =
    (Raise (AssemblerError SlotAlreadyUsed
              ("Location (" +:+ pretty loc
                 +:+ ") is already used with a unit of type: " +:+ fst occupant)),
     st).
Proof.
  intros Hty Hr Eh Eocc. unfold add_device, bind, lift, get_locations, AsmError_NO_RET.
  apply py_in_true in Hty. rewrite Hty. cbn [negb].
  replace ((loc <? 0) || (loc >? 11)) with false by lia.
  rewrite Eh, Eocc. reflexivity.
Qed.

(** The hex digit of the declared slot differs from the one of the motor's
    second slot. *)
Lemma declared_lookup loc dtype name h h2 st :
  locations (declared loc dtype name h h2 st) !! h = Some (dtype, loc).
Proof. unfold declared. cbn. apply lookup_insert_eq. Qed.

Lemma declared_keeps loc dtype name h h2 st k v :
  locations st !! h = None ->
  (is_motor dtype = true -> locations st !! h2 = None) ->
  locations st !! k = Some v ->
  locations (declared loc dtype name h h2 st) !! k = Some v.
Proof.
  intros Hh Hh2 Hk. unfold declared. cbn.
  rewrite lookup_insert_ne by congruence.
  destruct (is_motor dtype); [| exact Hk].
  rewrite lookup_insert_ne; [exact Hk |].
  specialize (Hh2 eq_refl). congruence.
Qed.

Lemma recognized_not_marker (dtype : string) (code : Z) :
  device_types !! dtype = Some code -> String.eqb dtype "motor_second" = false.
Proof.
  intros H. apply device_types_cases in H.
  repeat (apply elem_of_cons in H; destruct H as [H | H];
          [inversion H; subst; reflexivity |]).
  apply elem_of_nil in H. destruct H.
Qed.

Lemma resolve_after_declare st loc dtype name code size b st' :
  device_types !! dtype = Some code -> device_storage !! dtype = Some size ->
  add_device loc dtype name st = (Ok b, st') ->
  get_location_type_and_size loc st' = Ok (code, size).
Proof.
  intros Hcode Hsize Hadd.
  apply add_device_ok_inv in Hadd
    as (_ & _ & _ & h & h2 & Eh & _ & _ & _ & ->).
  unfold get_location_type_and_size. rewrite Eh. cbn [rbind].
  rewrite declared_lookup, (recognized_not_marker _ _ Hcode). cbn [negb].
  unfold subscript. rewrite Hcode, Hsize. reflexivity.
Qed.

(** On the reset table every slot accepts every recognized device type,
    a tracker only at slot 0. *)
Lemma add_device_on_reset_table (loc : Z) (dtype : string) :
  0 <= loc <= 11 ->
  is_Some (device_types !! dtype) ->
  (dtype = "tracker" -> loc = 0) ->
  fst (add_device loc dtype None reset_table) = Ok true.
Proof.
  intros Hr [code Hcode] Htracker. apply device_types_cases in Hcode.
  repeat (apply elem_of_cons in Hcode; destruct Hcode as [Hcode | Hcode];
          [inversion Hcode; subst dtype code; clear Hcode |]);
    [| | | | | | | apply elem_of_nil in Hcode; destruct Hcode];
    try (rewrite (Htracker eq_refl); reflexivity);
    clear Htracker; each_slot loc; vm_compute; reflexivity.
Qed.

(** C1. On a freshly reset table, a successful [add_device] at a slot in
    [0,11] with a recognized device type, followed by
    [get_location_type_and_size] at that slot, returns the type's numeric
    code and its storage size. *)
Theorem C1_declare_then_resolve :
  forall (st0 st st' : table) (loc : Z) (dtype : string) (name : option string)
         (code size : Z),
    reset_devices_and_locations st0 = (Ok tt, st) ->
    0 <= loc <= 11 ->
    device_types !! dtype = Some code ->
    device_storage !! dtype = Some size ->
    add_device loc dtype name st = (Ok true, st') ->
    get_location_type_and_size loc st' = Ok (code, size).
Proof.
  intros st0 st st' loc dtype name code size _ _ Hcode Hsize Hadd.
  exact (resolve_after_declare _ _ _ _ _ _ _ _ Hcode Hsize Hadd).
Qed.

Lemma C1_declare_then_resolve_witness :
  get_location_type_and_size 11 motor_table = Ok (8, 9).
Proof.
  apply (C1_declare_then_resolve initial_table reset_table motor_table 11
           "motor-a" (Some "Left") 8 9).
  - reflexivity.
  - lia.
  - reflexivity.
  - reflexivity.
  - vm_compute. reflexivity.
Defined.

(** C2, as stated, fails: slot 3 is occupied, yet a declaration at slot 3
    with the unrecognized type [digin] fails with error 200
    (UnknownDeviceType); and the reserved slot 12 is occupied in the reset
    table, yet a declaration there fails with error 201 (SlotOutOfRange). *)
Lemma C2_counterexample :
  locations lamp_table !! "3" = Some ("led", 3) /\
  str_index hexdigits 3 = Ok "3" /\
  add_device 3 "digin" None lamp_table =
    (Raise (AssemblerError UnknownDeviceType "Unknown device type: digin"),
     lamp_table) /\
  locations reset_table !! "c" = Some ("index", 12) /\
  str_index hexdigits 12 = Ok "c" /\
  add_device 12 "led" None reset_table =
    (Raise (AssemblerError SlotOutOfRange "Location (12) outside of 0 to 11"),
     reset_table).
Proof. vm_compute. repeat split; reflexivity. Qed.

Lemma add_device_unknown_type loc dtype name st :
  device_types !! dtype = None ->
  add_device loc dtype name st =
    (Raise (AssemblerError UnknownDeviceType ("Unknown device type: " +:+ dtype)),
     st).
Proof.
  intros Hty. unfold add_device, py_in, lift, AsmError_NO_RET.
  rewrite Hty. reflexivity.
Qed.

Lemma add_device_out_of_range loc dtype name st :
  is_Some (device_types !! dtype) ->
  loc < 0 \/ 11 < loc ->
  add_device loc dtype name st =
    (Raise (AssemblerError SlotOutOfRange
              ("Location (" +:+ pretty loc +:+ ") outside of 0 to 11")),
     st).
Proof.
  intros Hty Hr. unfold add_device, lift, AsmError_NO_RET.
  apply py_in_true in Hty. rewrite Hty. cbn [negb].
  replace ((loc <? 0) || (loc >? 11)) with true by lia.
  reflexivity.
Qed.

(** C2 (amended). In every table: [add_device] at a slot in [0,11] that is
    occupied, with a recognized device type, fails with error 202
    (SlotAlreadyUsed), the message naming the occupant's type; the tests of
    the type and of the range come first, so an unrecognized device type
    fails with error 200 (UnknownDeviceType) at every slot, and a
    recognized type at a slot outside [0,11], the occupied reserved slots
    12 to 15 among them, fails with error 201 (SlotOutOfRange); and every
    failing call of [add_device], whatever the table, the arguments and the
    failure, leaves [devices] and [locations] as they were. *)
Theorem C2_occupied_slot_rejected :
  forall st : table,
    (forall (loc : Z) (dtype : string) (name : option string) (h : string)
            (occupant : string * Z),
        is_Some (device_types !! dtype) ->
        0 <= loc <= 11 ->
        str_index hexdigits loc = Ok h ->
        locations st !! h = Some occupant ->
        add_device loc dtype name st =
          (Raise (AssemblerError SlotAlreadyUsed
                    ("Location (" +:+ pretty loc
                       +:+ ") is already used with a unit of type: "
                       +:+ fst occupant)),
           st))
    /\ (forall (loc : Z) (dtype : string) (name : option string),
          device_types !! dtype = None ->
          add_device loc dtype name st =
            (Raise (AssemblerError UnknownDeviceType
                      ("Unknown device type: " +:+ dtype)),
             st))
    /\ (forall (loc : Z) (dtype : string) (name : option string),
          is_Some (device_types !! dtype) ->
          loc < 0 \/ 11 < loc ->
          add_device loc dtype name st =
            (Raise (AssemblerError SlotOutOfRange
                      ("Location (" +:+ pretty loc +:+ ") outside of 0 to 11")),
             st))
    /\ (forall (loc : Z) (dtype : string) (name : option string) (e : exn)
               (st' : table),
          add_device loc dtype name st = (Raise e, st') ->
          devices st' = devices st /\ locations st' = locations st).
Proof.
  intros st. split; [| split; [| split]].
  - intros loc dtype name h occupant Hty Hr Eh Eocc.
    exact (add_device_occupied _ _ _ _ _ _ Hty Hr Eh Eocc).
  - intros loc dtype name Hty. exact (add_device_unknown_type _ _ _ _ Hty).
  - intros loc dtype name Hty Hr.
    exact (add_device_out_of_range _ _ _ _ Hty Hr).
  - intros loc dtype name e st' Hfail.
    apply add_device_raise_unchanged in Hfail. subst st'. split; reflexivity.
Qed.

Lemma C2_occupied_slot_rejected_witness :
  add_device 3 "beeper" (Some "Horn") lamp_table =
    (Raise (AssemblerError SlotAlreadyUsed
              "Location (3) is already used with a unit of type: led"),
     lamp_table)
  /\ add_device 3 "digin" None lamp_table =
       (Raise (AssemblerError UnknownDeviceType "Unknown device type: digin"),
        lamp_table)
  /\ add_device 12 "led" None reset_table =
       (Raise (AssemblerError SlotOutOfRange "Location (12) outside of 0 to 11"),
        reset_table)
  /\ (devices (snd (add_device 5 "tracker" None reset_table))
        = devices reset_table /\
      locations (snd (add_device 5 "tracker" None reset_table))
        = locations reset_table).
Proof.
  destruct (C2_occupied_slot_rejected lamp_table) as (H202 & H200 & _ & _).
  destruct (C2_occupied_slot_rejected reset_table) as (_ & _ & H201 & Hsame).
  split; [| split; [| split]].
  - apply (H202 3 "beeper" (Some "Horn") "3" ("led", 3)).
    + exists 7. reflexivity.
    + lia.
    + reflexivity.
    + vm_compute. reflexivity.
  - apply (H200 3 "digin" None). reflexivity.
  - apply (H201 12 "led" None).
    + exists 10. reflexivity.
    + right. lia.
  - apply (Hsame 5 "tracker" None
             (AssemblerError InvalidTrackerPlacement
                "A tracker device can only be located at 0, not location 5")).
    vm_compute. reflexivity.
Defined.

Lemma add_device_keeps_locations loc dtype name st r st' k v :
  add_device loc dtype name st = (r, st') ->
  locations st !! k = Some v -> locations st' !! k = Some v.
Proof.
  intros Hadd Hk. destruct r as [b | e].
  - apply add_device_ok_inv in Hadd
      as (_ & _ & _ & h & h2 & _ & _ & Hfree & Hfree2 & ->).
    apply declared_keeps; assumption.
  - apply add_device_raise_unchanged in Hadd. subst st'. exact Hk.
Qed.

Lemma declared_after_keeps_locations st st' k v :
  declared_after st st' ->
  locations st !! k = Some v -> locations st' !! k = Some v.
Proof.
  induction 1 as [| st1 loc dtype name r st2 _ IH Hadd]; intros Hk.
  - exact Hk.
  - exact (add_device_keeps_locations _ _ _ _ _ _ _ _ Hadd (IH Hk)).
Qed.

(** C3, as stated, fails: after a motor is declared at slot 11, a
    declaration at slot 0 with the unrecognized type [digin] fails with
    error 200 (UnknownDeviceType), not with SlotAlreadyUsed. *)
Lemma C3_counterexample :
  add_device 11 "motor-a" (Some "Left") reset_table = (Ok true, motor_table) /\
  add_device 0 "digin" None motor_table =
    (Raise (AssemblerError UnknownDeviceType "Unknown device type: digin"),
     motor_table).
Proof. vm_compute. split; reflexivity. Qed.

(** C3 (amended). A successful declaration of a motor type at slot 11 binds
    slot 11 (hex digit [b]) to the motor type and slot 0 to the
    [motor_second] marker; [devices] gains at most the motor's own name,
    bound to slot 11, and nothing for the marker.  In that table, and in
    every table reached from it by further declarations, [add_device] at
    slot 0 with a recognized device type fails with error 202
    (SlotAlreadyUsed). *)
Theorem C3_motor_at_11_takes_slot_0 :
  forall (st st' : table) (dtype : string) (name : option string),
    is_motor dtype = true ->
    add_device 11 dtype name st = (Ok true, st') ->
    locations st' !! "b" = Some (dtype, 11) /\
    locations st' !! "0" = Some ("motor_second", 0) /\
    devices st' =
      match recorded_name name with
      | Some n => if truthy n then <[n := (dtype, 11)]> (devices st)
                  else devices st
      | None => devices st
      end /\
    forall (st'' : table) (dtype2 : string) (name2 : option string),
      declared_after st' st'' ->
      is_Some (device_types !! dtype2) ->
      add_device 0 dtype2 name2 st'' =
        (Raise (AssemblerError SlotAlreadyUsed
                  "Location (0) is already used with a unit of type: motor_second"),
         st'').
Proof.
  intros st st' dtype name Hmotor Hadd.
  apply add_device_ok_inv in Hadd
    as (_ & _ & _ & h & h2 & Eh & Eh2 & Hfree & Hfree2 & ->).
  vm_compute in Eh, Eh2. inversion Eh; inversion Eh2; subst h h2; clear Eh Eh2.
  assert (locations (declared 11 dtype name "b" "0" st) !! "0"
          = Some ("motor_second", 0)) as Hmarker.
  { unfold declared. cbn. rewrite Hmotor.
    rewrite lookup_insert_ne by discriminate. apply lookup_insert_eq. }
  split; [apply declared_lookup |]. split; [exact Hmarker |].
  split; [reflexivity |].
  intros st'' dtype2 name2 Hafter Hty.
  apply (declared_after_keeps_locations _ _ _ _ Hafter) in Hmarker.
  exact (add_device_occupied 0 dtype2 name2 st'' "0" _ Hty
           ltac:(lia) eq_refl Hmarker).
Qed.

Lemma C3_motor_at_11_takes_slot_0_witness :
  locations motor_table !! "b" = Some ("motor-a", 11) /\
  locations motor_table !! "0" = Some ("motor_second", 0) /\
  devices motor_table = <["left" := ("motor-a", 11)]> (devices reset_table) /\
  forall (st'' : table) (dtype2 : string) (name2 : option string),
    declared_after motor_table st'' ->
    is_Some (device_types !! dtype2) ->
    add_device 0 dtype2 name2 st'' =
      (Raise (AssemblerError SlotAlreadyUsed
                "Location (0) is already used with a unit of type: motor_second"),
       st'').
Proof.
  apply (C3_motor_at_11_takes_slot_0 reset_table motor_table "motor-a"
           (Some "Left")).
  - reflexivity.
  - vm_compute. reflexivity.
Defined.

(** ** Resolving a slot *)

Lemma reachable_locations_typed st : reachable st -> locations_typed st.
Proof.
  induction 1 as [| st r st' _ IH Hreset | st loc dtype name r st' _ IH Hadd].
  - intros k v Hk. cbn in Hk. rewrite lookup_empty in Hk. discriminate.
  - inversion Hreset; subst. intros k v Hk. right; right. exact Hk.
  - destruct r as [b | e].
    + apply add_device_ok_inv in Hadd
        as (_ & Hty & _ & h & h2 & _ & _ & _ & _ & ->).
      intros k v. unfold declared. cbn.
      destruct (decide (h = k)) as [-> | Hne].
      * rewrite lookup_insert_eq. intros [= <-]. right; left. exact Hty.
      * rewrite lookup_insert_ne by exact Hne.
        destruct (is_motor dtype); [| apply IH].
        destruct (decide (h2 = k)) as [-> | Hne2].
        -- rewrite lookup_insert_eq. intros [= <-]. left. reflexivity.
        -- rewrite lookup_insert_ne by exact Hne2. apply IH.
    + apply add_device_raise_unchanged in Hadd. subst st'. exact IH.
Qed.

(** C4, as stated, fails: in the reset table, which is reachable, the
    reserved slot 12 holds the pseudo-device type [index], which has no
    entry in [device_types], and the lookup raises [KeyError]. *)
Lemma C4_counterexample :
  reachable reset_table /\
  locations reset_table !! "c" = Some ("index", 12) /\
  get_location_type_and_size 12 reset_table = Raise (KeyError "index").
Proof.
  split; [| split; reflexivity].
  exact (reach_reset initial_table (Ok tt) reset_table reach_initial eq_refl).
Qed.

(** C4 (amended). For every reachable table and every slot in [0,11],
    [get_location_type_and_size] does not fail: it returns the numeric code
    and storage size of the device type bound to the slot when that binding
    is not the [motor_second] marker, and (0,0) when the slot is unbound or
    holds the marker. *)
Theorem C4_resolve_slot_total :
  forall (st : table) (loc : Z),
    reachable st ->
    0 <= loc <= 11 ->
    exists h,
      str_index hexdigits loc = Ok h /\
      match locations st !! h with
      | Some (dtype, _) =>
          if String.eqb dtype "motor_second"
          then get_location_type_and_size loc st = Ok (0, 0)
          else exists code size,
                 device_types !! dtype = Some code /\
                 device_storage !! dtype = Some size /\
                 get_location_type_and_size loc st = Ok (code, size)
      | None => get_location_type_and_size loc st = Ok (0, 0)
      end.
Proof.
  intros st loc Hreach Hr.
  destruct (slot_hex_defined loc Hr) as [h Eh]. exists h. split; [exact Eh |].
  unfold get_location_type_and_size. rewrite Eh. cbn [rbind].
  destruct (locations st !! h) as [[dtype n] |] eqn:Eocc; [| reflexivity].
  destruct (String.eqb_spec dtype "motor_second") as [-> | Hne]; [reflexivity |].
  cbn [negb].
  destruct (reachable_locations_typed st Hreach h _ Eocc) as [Hm | [Hty | Hres]].
  - cbn [fst] in Hm. contradiction.
  - cbn [fst] in Hty. destruct Hty as [code Hcode].
    destruct (device_storage_defined _ _ Hcode) as [size Hsize].
    exists code, size. unfold subscript. rewrite Hcode, Hsize. auto.
  - rewrite (slot_not_reserved loc h Hr Eh) in Hres. discriminate.
Qed.

Lemma C4_resolve_slot_total_witness :
  exists h,
    str_index hexdigits 11 = Ok h /\
    match locations motor_table !! h with
    | Some (dtype, _) =>
        if String.eqb dtype "motor_second"
        then get_location_type_and_size 11 motor_table = Ok (0, 0)
        else exists code size,
               device_types !! dtype = Some code /\
               device_storage !! dtype = Some size /\
               get_location_type_and_size 11 motor_table = Ok (code, size)
    | None => get_location_type_and_size 11 motor_table = Ok (0, 0)
    end.
Proof.
  apply (C4_resolve_slot_total motor_table 11).
  - apply (reach_add reset_table 11 "motor-a" (Some "Left") (Ok true)).
    + exact (reach_reset initial_table (Ok tt) reset_table reach_initial eq_refl).
    + vm_compute. reflexivity.
  - lia.
Defined.

(** ** Tokenizing a quoted string *)

(** C5. The line [say "hi, \"bob\""] (character codes spelled out below)
    is cut by [prechop_line] into two segments, and [chop_line] returns
    exactly two words: the operator [say] and the string [hi, "bob"]; the
    comma inside the quotes does not end the segment, and each escaped
    quote is kept while its backslash is dropped. *)
Theorem C5_tokenize_escaped_quotes :
  forall st : table,
    map nat_of_ascii (list_ascii_of_string say_line) =
      [115; 97; 121; 32; 34; 104; 105; 44; 32; 92; 34; 98; 111; 98; 92; 34; 34]%nat
    /\ map nat_of_ascii (list_ascii_of_string hi_bob) =
      [104; 105; 44; 32; 34; 98; 111; 98; 34]%nat
    /\ prechop_line say_line = ["say"; chr1 dquote +:+ hi_bob +:+ chr1 dquote]
    /\ chop_line say_line st =
         Ok [mkWord "op" (VStr "say"); mkWord "string" (VStr hi_bob)].
Proof. intros st. repeat split; reflexivity. Qed.

(** ** Resolving a module reference *)

Lemma lower_char_colon (c : ascii) :
  Ascii.eqb (lower_char c) ":" = Ascii.eqb c ":".
Proof. destruct c as [[] [] [] [] [] [] [] []]; reflexivity. Qed.

Lemma split_at_absent (sep : ascii) (s : string) :
  char_in sep s = false -> split_at sep s = (s, None).
Proof.
  induction s as [| c s IH]; cbn; [reflexivity |].
  rewrite (Ascii.eqb_sym c sep).
  destruct (Ascii.eqb sep c); cbn; [discriminate |].
  intros H. rewrite (IH H). reflexivity.
Qed.

Lemma char_in_lower_colon (s : string) :
  char_in ":" (lower s) = char_in ":" s.
Proof.
  induction s as [| c s IH]; cbn [lower char_in]; [reflexivity |].
  rewrite IH, (Ascii.eqb_sym ":" (lower_char c)), lower_char_colon,
    (Ascii.eqb_sym c ":").
  reflexivity.
Qed.

(** ** The register part of a colon-form reference *)

Lemma lower_app (a b : string) : lower (a +:+ b) = lower a +:+ lower b.
Proof.
  induction a as [| c a IH]; [reflexivity |].
  change (String c a +:+ b) with (String c (a +:+ b)).
  cbn [lower]. rewrite IH. reflexivity.
Qed.

Lemma char_in_app_colon (a b : string) : char_in ":" (a +:+ ":" +:+ b) = true.
Proof.
  induction a as [| c a IH]; [reflexivity |].
  change (String c a +:+ ":" +:+ b) with (String c (a +:+ ":" +:+ b)).
  cbn [char_in]. rewrite IH. apply orb_true_r.
Qed.

Lemma split_at_first_colon (a b : string) :
  char_in ":" a = false -> split_at ":" (a +:+ ":" +:+ b) = (a, Some b).
Proof.
  induction a as [| c a IH]; [reflexivity |].
  change (String c a +:+ ":" +:+ b) with (String c (a +:+ ":" +:+ b)).
  cbn [char_in split_at]. rewrite (Ascii.eqb_sym c ":").
  destruct (Ascii.eqb ":" c); cbn [orb]; [discriminate |].
  intros H. rewrite (IH H). reflexivity.
Qed.

Lemma colon_not_two_hex_digits (s : string) :
  char_in ":" s = true ->
  (len s =? 2) && char_in (char_at 0 s) hexdigits
               && char_in (char_at 1 s) hexdigits = false.
Proof.
  destruct s as [| a [| b [| c t]]]; try reflexivity.
  - cbn [char_in]. rewrite orb_false_r.
    destruct (Ascii.eqb_spec ":" a) as [<- | _];
      [reflexivity |].
    destruct (Ascii.eqb_spec ":" b) as [<- | _]; [| discriminate].
    intros _. apply andb_false_r.
  - intros _.
    replace (len (String a (String b (String c t))) =? 2) with false;
      [reflexivity |].
    symmetry. apply Z.eqb_neq. unfold len. simpl. lia.
Qed.

Section ColonForm.

(** A colon-form reference [subject:regpart] whose subject resolves, by
    device name or else by location identifier, to a device type that
    has a register map. *)
Variables (st : table) (subject dtype : string) (loc : Z).
Variable regs : gmap string (Z * Z).
Hypothesis subject_no_colon : char_in ":" subject = false.
Hypothesis subject_resolves :
  devices st !! lower subject = Some (dtype, loc) \/
  (devices st !! lower subject = None /\
   locations st !! lower subject = Some (dtype, loc)).
Hypothesis register_map : registers !! dtype = Some regs.

(** What the resolver computes from the register part. *)
Lemma parse_mod_reg_colon_form (regpart : string) :
  char_in ":" regpart = false ->
  parse_mod_reg (subject +:+ ":" +:+ regpart) st =
    match regs !! lower regpart with
    | Some reg => Ok (fst reg + Z.shiftl loc 4)
    | None =>
        if str_contains (lower regpart) "0123456789abcdef" then
          let? digit := py_int (lower regpart) 16 in
          Ok (digit + Z.shiftl loc 4)
        else
          Raise (AssemblerError UnknownRegisterReference
                   ("Didn't understand the register name/number: "
                      +:+ lower regpart))
    end.
Proof.
  intros Hreg. unfold parse_mod_reg.
  rewrite (colon_not_two_hex_digits _ (char_in_app_colon subject regpart)).
  rewrite (char_in_app_colon subject regpart).
  rewrite lower_app.
  change (lower (":" +:+ regpart)) with (":" +:+ lower regpart).
  cbn [split].
  rewrite split_at_first_colon
    by (rewrite char_in_lower_colon; exact subject_no_colon).
  rewrite split_at_absent by (rewrite char_in_lower_colon; exact Hreg).
  assert (match devices st !! lower subject with
          | Some d => Ok d
          | None =>
              match locations st !! lower subject with
              | Some l => Ok l
              | None =>
                  AsmError_NO_RET 213
                    ("Didn't understand the module name/number: "
                       +:+ lower subject)
              end
          end = Ok (dtype, loc)) as ->.
  { destruct subject_resolves as [-> | [-> ->]]; reflexivity. }
  cbn [rbind]. unfold subscript. rewrite register_map. cbn [rbind].
  reflexivity.
Qed.

(** A register name resolves to its byte offset plus the slot nibble. *)
Lemma parse_mod_reg_register_name (regpart : string) (reg : Z * Z) :
  char_in ":" regpart = false ->
  regs !! lower regpart = Some reg ->
  parse_mod_reg (subject +:+ ":" +:+ regpart) st =
    Ok (fst reg + Z.shiftl loc 4).
Proof.
  intros Hreg Hname. rewrite (parse_mod_reg_colon_form _ Hreg), Hname.
  reflexivity.
Qed.

(** A single hex digit that is not a register name resolves to its value
    plus the slot nibble. *)
Lemma parse_mod_reg_hex_digit (c : ascii) (d : Z) :
  regs !! chr1 (lower_char c) = None ->
  char_in (lower_char c) "0123456789abcdef" = true ->
  digit_value (lower_char c) = Some d ->
  parse_mod_reg (subject +:+ ":" +:+ chr1 c) st = Ok (d + Z.shiftl loc 4).
Proof.
  intros Hname Hhex Hd.
  assert (char_in ":" (chr1 c) = false) as Hreg.
  { cbn [chr1 char_in]. rewrite orb_false_r, Ascii.eqb_sym, <- lower_char_colon.
    destruct (Ascii.eqb_spec (lower_char c) ":") as [E | _]; [| reflexivity].
    rewrite E in Hhex. discriminate. }
  rewrite (parse_mod_reg_colon_form _ Hreg).
  change (lower (chr1 c)) with (chr1 (lower_char c)). rewrite Hname.
  revert Hhex Hd. generalize (lower_char c). intros x Hhex Hd.
  destruct x as [[] [] [] [] [] [] [] []]; try discriminate Hhex;
    vm_compute in Hd; inversion Hd; subst d; reflexivity.
Qed.

(** A register part that is neither a register name nor a substring of
    the digit string is rejected with error 214. *)
Lemma parse_mod_reg_unknown_register (regpart : string) :
  char_in ":" regpart = false ->
  regs !! lower regpart = None ->
  str_contains (lower regpart) "0123456789abcdef" = false ->
  parse_mod_reg (subject +:+ ":" +:+ regpart) st =
    Raise (AssemblerError UnknownRegisterReference
             ("Didn't understand the register name/number: "
                +:+ lower regpart)).
Proof.
  intros Hreg Hname Hsubstr.
  rewrite (parse_mod_reg_colon_form _ Hreg), Hname, Hsubstr. reflexivity.
Qed.

End ColonForm.

(** C6: the code departs from the specification.  The register part is tested
    with a substring test against [0123456789abcdef], not per character.
    With an led at slot 3: the register name [status] and the digit [f]
    resolve as claimed and [zz] is rejected with error 214; but the empty
    register part passes the test and [int] raises [ValueError], and the
    two-character part [12], no register of an led, is accepted and yields
    0x12 + 0x30 = 0x42, an address in slot 4.  A subject that resolves to
    the [motor_second] marker raises [KeyError]. *)
Theorem C6_register_part_substring_test :
  locations lamp_table !! "3" = Some ("led", 3) /\
  parse_mod_reg "3:status" lamp_table = Ok 48 /\
  parse_mod_reg "3:f" lamp_table = Ok 63 /\
  parse_mod_reg "3:zz" lamp_table =
    Raise (AssemblerError UnknownRegisterReference
             "Didn't understand the register name/number: zz") /\
  str_contains "" "0123456789abcdef" = true /\
  parse_mod_reg "3:" lamp_table = Raise (ValueError "") /\
  str_contains "12" "0123456789abcdef" = true /\
  py_in "12" <$> (registers !! "led") = Some false /\
  parse_mod_reg "3:12" lamp_table = Ok 66 /\
  66 = 2 + Z.shiftl 4 4 /\
  locations motor_table !! "0" = Some ("motor_second", 0) /\
  parse_mod_reg "0:status" motor_table = Raise (KeyError "motor_second").
Proof. vm_compute. repeat split; reflexivity. Qed.

(** ** References without a colon *)

(** C7, as stated, fails: [zz] has no colon, so the resolver stops with
    error 215 (MalformedAddressSyntax) before any lookup of the subject;
    no error 213 (UnknownModuleReference) is raised. *)
Lemma C7_counterexample :
  devices reset_table !! "zz" = None /\
  locations reset_table !! "zz" = None /\
  parse_mod_reg "zz" reset_table =
    Raise (AssemblerError 215 "Error - can't parse zz as a modreg") /\
  MalformedAddressSyntax 215 = true /\
  (215 =? UnknownModuleReference) = false.
Proof. repeat split; reflexivity. Qed.

(** C7 (amended). In every table, resolving the operand text [zz] fails
    with error 215 (MalformedAddressSyntax).  In the colon form
    [zz:<register-part>], when [zz] is neither a device name nor a
    location identifier, resolution fails with error 213
    (UnknownModuleReference). *)
Theorem C7_unknown_module :
  forall st : table,
    parse_mod_reg "zz" st =
      Raise (AssemblerError 215 "Error - can't parse zz as a modreg")
    /\ forall regpart : string,
         devices st !! "zz" = None ->
         locations st !! "zz" = None ->
         char_in ":" regpart = false ->
         parse_mod_reg ("zz:" +:+ regpart) st =
           Raise (AssemblerError UnknownModuleReference
                    "Didn't understand the module name/number: zz").
Proof.
  intros st. split; [reflexivity |].
  intros regpart Hdev Hloc Hcolon. unfold parse_mod_reg.
  replace (len ("zz:" +:+ regpart) =? 2) with false
    by (symmetry; apply Z.eqb_neq; unfold len; simpl; lia).
  cbn [andb]. change (char_in ":" ("zz:" +:+ regpart)) with true. cbv iota.
  change (lower ("zz:" +:+ regpart)) with ("zz:" +:+ lower regpart).
  change (split ":" 2 ("zz:" +:+ lower regpart))
    with ("zz" :: match split_at ":" (lower regpart) with
                  | (h, None) => [h]
                  | (h, Some r) => h :: [r]
                  end).
  rewrite split_at_absent by (rewrite char_in_lower_colon; exact Hcolon).
  rewrite Hdev, Hloc. reflexivity.
Qed.

Lemma C7_unknown_module_witness :
  parse_mod_reg "zz:status" reset_table =
    Raise (AssemblerError UnknownModuleReference
             "Didn't understand the module name/number: zz").
Proof.
  apply (proj2 (C7_unknown_module reset_table) "status"); reflexivity.
Defined.

(** ** Double-quoted numerals *)

Lemma startswith_char (s : string) (c : ascii) :
  startswith s (chr1 c) = true -> exists t, s = String c t.
Proof.
  unfold startswith, chr1. destruct s as [| d t]; cbn; [discriminate |].
  destruct (ascii_dec c d) as [-> | _]; [eauto | discriminate].
Qed.

Lemma endswith_char (s : string) (c : ascii) :
  endswith s (chr1 c) = true -> exists t, rev_string s = String c t.
Proof.
  unfold endswith. change (rev_string (chr1 c)) with (chr1 c).
  apply startswith_char.
Qed.

Lemma py_int_dquote (t : string) (base : Z) :
  py_int (String dquote t) base = Raise (ValueError (String dquote t)).
Proof. reflexivity. Qed.

Lemma parse_bases_double_quoted (s : string) :
  startswith s (chr1 dquote) = true ->
  endswith s (chr1 dquote) = true ->
  parse_bases (VStr s) false = Raise (ValueError s).
Proof.
  intros Hs He.
  destruct (startswith_char _ _ Hs) as [t ->].
  destruct (endswith_char _ _ He) as [u Eu].
  unfold parse_bases, endswith. rewrite Eu.
  change (startswith (String dquote t) (chr1 squote)) with false.
  cbn [andb].
  change (String.prefix (rev_string "/2") (String dquote u)) with false.
  change (String.prefix (rev_string "/10") (String dquote u)) with false.
  change (String.prefix (rev_string "/16") (String dquote u)) with false.
  cbv iota. apply py_int_dquote.
Qed.

(** C8, as stated, fails: the tokenizer and the accessors call
    [parse_bases] with its [string] flag off, so the double-quoted numeral
    ["12"] reaches [int] and fails with [ValueError], not with error 211
    (QuotingError). *)
Lemma C8_counterexample :
  parse_bases (VStr quoted_12) false = Raise (ValueError quoted_12) /\
  num (mkWord "const" (VStr quoted_12)) = Raise (ValueError quoted_12) /\
  anum (mkWord "arg" (VStr quoted_12)) = Raise (ValueError quoted_12) /\
  prechop_line ("ld $" +:+ quoted_12) = ["ld"; "$" +:+ quoted_12] /\
  chop_line ("ld $" +:+ quoted_12) reset_table = Raise (ValueError quoted_12).
Proof. repeat split; reflexivity. Qed.

(** C8 (amended). For every text wrapped in double quotes, the numeric
    literal parser as the tokenizer and the accessors invoke it (flag
    [string] off) fails with the [ValueError] of [int], carrying the text:
    so do [num], [anum] on an argument token, and the tokenizer on the
    segment [$] followed by the text.  Error 211 (QuotingError) is what
    the parser raises on such a text when its [string] flag is on. *)
Theorem C8_double_quoted_numeral :
  forall s : string,
    startswith s (chr1 dquote) = true ->
    endswith s (chr1 dquote) = true ->
    parse_bases (VStr s) false = Raise (ValueError s)
    /\ (forall kind, num (mkWord kind (VStr s)) = Raise (ValueError s))
    /\ anum (mkWord "arg" (VStr s)) = Raise (ValueError s)
    /\ (forall segs w ws st,
          chop_loop (("$" +:+ s) :: segs) (w :: ws) st = Raise (ValueError s))
    /\ parse_bases (VStr s) true =
         Raise (AssemblerError QuotingError
                  "Error - use single quotes for an ascii constant").
Proof.
  intros s Hs He. pose proof (parse_bases_double_quoted s Hs He) as Hpb.
  split; [exact Hpb |]. split; [intros kind; exact Hpb |].
  split; [unfold anum; cbn -[parse_bases]; rewrite Hpb; reflexivity |].
  split.
  - intros segs w ws st.
    destruct (startswith_char _ _ Hs) as [t ->].
    change ("$" +:+ String dquote t) with (String "$" (String dquote t)).
    cbn -[parse_bases len]. rewrite andb_false_r. cbn -[parse_bases].
    rewrite Hpb. reflexivity.
  - destruct (startswith_char _ _ Hs) as [t ->].
    unfold parse_bases. rewrite Hs, He.
    change (startswith (String dquote t) (chr1 squote)) with false.
    reflexivity.
Qed.

Lemma C8_double_quoted_numeral_witness :
  parse_bases (VStr quoted_12) false = Raise (ValueError quoted_12)
  /\ (forall kind, num (mkWord kind (VStr quoted_12)) =
                   Raise (ValueError quoted_12))
  /\ anum (mkWord "arg" (VStr quoted_12)) = Raise (ValueError quoted_12)
  /\ (forall segs w ws st,
        chop_loop (("$" +:+ quoted_12) :: segs) (w :: ws) st =
        Raise (ValueError quoted_12))
  /\ parse_bases (VStr quoted_12) true =
       Raise (AssemblerError QuotingError
                "Error - use single quotes for an ascii constant").
Proof. apply (C8_double_quoted_numeral quoted_12); reflexivity. Defined.

(** ** The numeric accessor *)

(** C9: the code departs from the specification.  [num] has no test of the
    token kind: on an argument token holding [12] it returns 12, and on an
    operator token it fails with the [ValueError] of [int], never with a
    kind mismatch.  On a numeric-constant token holding an integer, which
    is what the tokenizer builds for [$65], it passes the integer to
    [parse_bases] and raises [AttributeError].  The sibling accessor [anum]
    does both: error 207 on a wrong kind, the stored integer on a
    constant. *)
Theorem C9_num_without_kind_check :
  (forall (kind : string) (n : Z), num (mkWord kind (VInt n)) = Raise AttributeError) /\
  chop_line "ld $65" reset_table =
    Ok [mkWord "op" (VStr "ld"); mkWord "const" (VInt 65)] /\
  num (mkWord "const" (VInt 65)) = Raise AttributeError /\
  num (mkWord "arg" (VStr "12")) = Ok 12 /\
  num (mkWord "op" (VStr "ld")) = Raise (ValueError "ld") /\
  anum (mkWord "const" (VInt 65)) = Ok (VInt 65) /\
  anum (mkWord "op" (VStr "12")) =
    Raise (AssemblerError 207 "Expected an argument or constant!") /\
  astr (mkWord "const" (VInt 65)) =
    Raise (AssemblerError 208 "Expected an argument or string!") /\
  amodreg (mkWord "const" (VInt 65)) reset_table =
    Raise (AssemblerError 210 "Expected an argument or string!") /\
  TokenKindMismatch 207 && TokenKindMismatch 208 && TokenKindMismatch 210 = true.
Proof. repeat split; reflexivity. Qed.

(** ** Comments never reach the classification stage *)

Lemma truthy_snoc (comp : string) (c : ascii) : truthy (comp +:+ chr1 c) = true.
Proof. destruct comp; reflexivity. Qed.

Lemma no_hash_snoc (comp : string) (c : ascii) :
  no_hash comp ->
  (truthy comp = false -> Ascii.eqb c "#" = false) ->
  no_hash (comp +:+ chr1 c).
Proof.
  unfold no_hash, startswith. destruct comp as [| d comp].
  - change (EmptyString +:+ chr1 c) with (String c EmptyString).
    cbn -[ascii_dec].
    intros _ Hc. specialize (Hc eq_refl).
    destruct (ascii_dec "#" c) as [<- | _]; [discriminate | reflexivity].
  - change (String d comp +:+ chr1 c) with (String d (comp +:+ chr1 c)).
    cbn -[ascii_dec].
    intros Hd _.
    destruct (ascii_dec "#" d); [destruct comp; discriminate | reflexivity].
Qed.

Lemma prechop_loop_no_hash (line : string) :
  forall in_string in_escape components comp,
    Forall no_hash components ->
    no_hash comp ->
    (truthy in_string = true \/ in_escape = true -> truthy comp = true) ->
    Forall no_hash (fst (prechop_loop line in_string in_escape components comp))
    /\ no_hash (snd (prechop_loop line in_string in_escape components comp)).
Proof.
  induction line as [| c rest IH]; intros in_string in_escape components comp
    Hcs Hcomp Hopen; cbn [prechop_loop]; [split; assumption |].
  destruct (Ascii.eqb c newline); [split; assumption |].
  destruct in_escape.
  { apply IH; [assumption | | intros _; apply truthy_snoc].
    apply no_hash_snoc; [assumption |]. intros Hempty.
    rewrite Hopen in Hempty by (right; reflexivity). discriminate. }
  destruct (truthy in_string) eqn:Ein; cbn [andb negb].
  - rewrite andb_false_r.
    assert (truthy comp = true) as Hfull by (apply Hopen; left; reflexivity).
    assert (no_hash (comp +:+ chr1 c)) as Hsnoc.
    { apply no_hash_snoc; [assumption |]. intros Hempty. congruence. }
    destruct (Ascii.eqb c backslash).
    { apply IH; [assumption | assumption | intros _; exact Hfull]. }
    destruct (String.eqb (chr1 c) in_string).
    + apply IH; [assumption | assumption | intros _; apply truthy_snoc].
    + apply IH; [assumption | assumption | intros _; apply truthy_snoc].
  - rewrite andb_true_r.
    destruct (Ascii.eqb c "#") eqn:Ehash; [split; assumption |].
    assert (no_hash (comp +:+ chr1 c)) as Hsnoc.
    { apply no_hash_snoc; [assumption |]. intros _. exact Ehash. }
    destruct (Ascii.eqb c dquote).
    { apply IH; [assumption | assumption | intros _; apply truthy_snoc]. }
    destruct (Ascii.eqb c " " || Ascii.eqb c tab || Ascii.eqb c ",").
    + apply IH.
      * destruct (truthy comp); [| assumption].
        apply Forall_app. split; [assumption |]. constructor; [assumption | constructor].
      * reflexivity.
      * rewrite Ein. intros [H | H]; discriminate.
    + apply IH; [assumption | assumption | intros _; apply truthy_snoc].
Qed.

Lemma prechop_line_no_hash (line : string) : Forall no_hash (prechop_line line).
Proof.
  unfold prechop_line.
  destruct (prechop_loop_no_hash line EmptyString false [] EmptyString)
    as [Hcs Hcomp].
  - constructor.
  - reflexivity.
  - intros [H | H]; discriminate.
  - destruct (prechop_loop line EmptyString false [] EmptyString)
      as [components comp]. cbn [fst snd] in Hcs, Hcomp.
    destruct (truthy comp); [| assumption].
    apply Forall_app. split; [assumption |]. constructor; [assumption | constructor].
Qed.

Lemma chop_loop_never_breaks (segs : list string) :
  forall words st,
    Forall no_hash segs -> stopped_at_comment (chop_loop segs words st) = false.
Proof.
  induction segs as [| s segs IH]; intros words st Hall; [reflexivity |].
  inversion Hall as [| s' segs' Hs Hrest]; subst. unfold no_hash in Hs.
  cbn [chop_loop]. rewrite Hs.
  repeat match goal with
         | |- stopped_at_comment (chop_loop segs _ _) = false => apply IH; assumption
         | |- stopped_at_comment (rbind ?r _) = false =>
             destruct r; cbn [rbind]; [| reflexivity]
         | |- stopped_at_comment (if ?b then _ else _) = false => destruct b
         end.
Qed.

(** C10. For every input line, no segment returned by [prechop_line]
    begins with [#]; hence the loop of [chop_line] is never left at its
    comment test, on any table. *)
Theorem C10_comment_check_unreachable :
  forall (line : string) (st : table),
    Forall (fun s => startswith s "#" = false) (prechop_line line)
    /\ stopped_at_comment (chop_loop (prechop_line line) [] st) = false.
Proof.
  intros line st. split.
  - exact (prechop_line_no_hash line).
  - apply chop_loop_never_breaks. exact (prechop_line_no_hash line).
Qed.

(** * Further properties *)

(** ** Declarations: when they succeed and how they fail *)

Lemma add_device_ok_conditions loc dtype name st b st' :
  add_device loc dtype name st = (Ok b, st') ->
  opt_in_list (recorded_name name) special_names = false /\
  opt_in_dict (recorded_name name) (devices st) = false /\
  (dtype = "tracker" -> loc = 0).
Proof.
  unfold add_device, bind, lift, get_locations, get_devices, AsmError_NO_RET,
    recorded_name.
  destruct (negb (py_in dtype device_types)); [intros H; discriminate |].
  destruct ((loc <? 0) || (loc >? 11)); [intros H; discriminate |].
  destruct (str_index hexdigits loc) as [h | e0]; [| intros H; discriminate].
  destruct (locations st !! h); [intros H; discriminate |].
  destruct (opt_in_list _ special_names) eqn:E1; [intros H; discriminate |].
  destruct (opt_in_dict _ (devices st)) eqn:E2; [intros H; discriminate |].
  destruct (String.eqb dtype "tracker" && negb (loc =? 0)) eqn:E3;
    [intros H; discriminate |].
  intros _. split; [reflexivity |]. split; [reflexivity |].
  intros ->. cbn in E3. destruct (Z.eqb_spec loc 0); [assumption | discriminate].
Qed.

Lemma add_device_succeeds loc dtype name st h h2 :
  is_Some (device_types !! dtype) ->
  0 <= loc <= 11 ->
  str_index hexdigits loc = Ok h ->
  str_index hexdigits (motor_second_loc loc) = Ok h2 ->
  locations st !! h = None ->
  opt_in_list (recorded_name name) special_names = false ->
  opt_in_dict (recorded_name name) (devices st) = false ->
  (dtype = "tracker" -> loc = 0) ->
  (is_motor dtype = true -> locations st !! h2 = None) ->
  add_device loc dtype name st = (Ok true, declared loc dtype name h h2 st).
Proof.
  intros Hty Hr Eh Eh2 Hfree Hspecial Hused Htracker Hmotor.
  unfold add_device, claim_motor_second, bind, lift, get_locations, get_devices,
    set_location, set_device, ret, declared.
  apply py_in_true in Hty. rewrite Hty. cbn [negb].
  replace ((loc <? 0) || (loc >? 11)) with false by lia.
  rewrite Eh, Hfree.
  change (if opt_truthy name then option_map lower name else name)
    with (recorded_name name).
  rewrite Hspecial, Hused.
  replace (String.eqb dtype "tracker" && negb (loc =? 0)) with false.
  2:{ destruct (String.eqb_spec dtype "tracker") as [E | _]; [| reflexivity].
      rewrite (Htracker E). reflexivity. }
  destruct (is_motor dtype).
  - rewrite Eh2, (Hmotor eq_refl). cbn.
    destruct (recorded_name name) as [n |]; [destruct (truthy n) |]; reflexivity.
  - cbn. destruct (recorded_name name) as [n |]; [destruct (truthy n) |];
      reflexivity.
Qed.

(** X1. [add_device] returns [True] exactly when the type is recognized,
    the slot is in [0,11] and free, the lower-cased name is neither a
    built-in name nor already a device name, a tracker sits at slot 0 and a
    motor's second slot is free; the table it leaves is then the old one
    with the slot bound, the motor's second slot marked and the non-empty
    name recorded. *)
Theorem X1_add_device_success_iff :
  forall (loc : Z) (dtype : string) (name : option string) (st st' : table),
    add_device loc dtype name st = (Ok true, st') <->
    exists h h2,
      is_Some (device_types !! dtype) /\
      0 <= loc <= 11 /\
      str_index hexdigits loc = Ok h /\
      str_index hexdigits (motor_second_loc loc) = Ok h2 /\
      locations st !! h = None /\
      opt_in_list (recorded_name name) special_names = false /\
      opt_in_dict (recorded_name name) (devices st) = false /\
      (dtype = "tracker" -> loc = 0) /\
      (is_motor dtype = true -> locations st !! h2 = None) /\
      st' = declared loc dtype name h h2 st.
Proof.
  intros loc dtype name st st'. split.
  - intros Hadd.
    destruct (add_device_ok_conditions _ _ _ _ _ _ Hadd) as (Hs & Hu & Ht).
    apply add_device_ok_inv in Hadd
      as (_ & Hty & Hr & h & h2 & Eh & Eh2 & Hfree & Hfree2 & ->).
    exists h, h2. repeat split; try assumption; lia.
  - intros (h & h2 & Hty & Hr & Eh & Eh2 & Hfree & Hs & Hu & Ht & Hm & ->).
    apply add_device_succeeds; assumption.
Qed.

Lemma X1_add_device_success_iff_witness :
  add_device 3 "led" (Some "Lamp") reset_table =
    (Ok true, declared 3 "led" (Some "Lamp") "3" "4" reset_table).
Proof.
  apply (proj2 (X1_add_device_success_iff 3 "led" (Some "Lamp") reset_table
                  (declared 3 "led" (Some "Lamp") "3" "4" reset_table))).
  exists "3", "4".
  repeat split; try reflexivity; try lia; try discriminate.
  exists 10. reflexivity.
Defined.

(** [add_device] stops only through a call of [AsmError_NO_RET]. *)
Lemma add_device_raise_numbered loc dtype name st e st' :
  add_device loc dtype name st = (Raise e, st') ->
  exists n msg, e = AssemblerError n msg /\ 200 <= n <= 206.
Proof.
  unfold add_device, claim_motor_second, bind, lift, get_locations, get_devices,
    set_location, set_device, ret, AsmError_NO_RET.
  destruct (negb (py_in dtype device_types));
    [intros [= <- _]; eexists _, _; split; [reflexivity | lia] |].
  destruct ((loc <? 0) || (loc >? 11)) eqn:Erange;
    [intros [= <- _]; eexists _, _; split; [reflexivity | lia] |].
  assert (0 <= loc <= 11) as Hr by lia.
  destruct (slot_hex_defined _ Hr) as [h ->].
  destruct (slot_hex_defined _ (proj1 (motor_second_slot loc Hr))) as [h2 ->].
  destruct (locations st !! h);
    [intros [= <- _]; eexists _, _; split; [reflexivity | lia] |].
  destruct (opt_in_list _ special_names);
    [intros [= <- _]; eexists _, _; split; [reflexivity | lia] |].
  destruct (opt_in_dict _ (devices st));
    [intros [= <- _]; eexists _, _; split; [reflexivity | lia] |].
  destruct (String.eqb dtype "tracker" && negb (loc =? 0));
    [intros [= <- _]; eexists _, _; split; [reflexivity | lia] |].
  destruct (is_motor dtype).
  - destruct (locations st !! h2);
      [intros [= <- _]; eexists _, _; split; [reflexivity | lia] |].
    cbn. destruct (if opt_truthy name then option_map lower name else name) as [n |];
      [destruct (truthy n) |]; cbn; intros H; discriminate.
  - cbn. destruct (if opt_truthy name then option_map lower name else name) as [n |];
      [destruct (truthy n) |]; cbn; intros H; discriminate.
Qed.

(** X2. Whatever the arguments and the table, [add_device] returns [True]
    or stops at one of its calls of [AsmError_NO_RET], reporting an error
    number from 200 to 206 and leaving the table as it was.  No statement
    of its own stops it: the range test precedes the indexing of
    [string.hexdigits], and each read of [locations] follows a membership
    test. *)
Theorem X2_add_device_failures :
  forall (loc : Z) (dtype : string) (name : option string) (st : table),
    match add_device loc dtype name st with
    | (Ok b, _) => b = true
    | (Raise e, st') =>
        st' = st /\
        exists n, asm_error_number e = Some n /\ 200 <= n <= 206
    end.
Proof.
  intros loc dtype name st.
  destruct (add_device loc dtype name st) as [[b | e] st'] eqn:Hadd.
  - apply add_device_ok_inv in Hadd. tauto.
  - split; [exact (add_device_raise_unchanged _ _ _ _ _ _ Hadd) |].
    destruct (add_device_raise_numbered _ _ _ _ _ _ Hadd) as (n & msg & -> & Hn).
    exists n. split; [reflexivity | exact Hn].
Qed.

(** X3. A tracker is never placed at a slot other than 0: the call fails
    with an error numbered 201 to 205 and changes nothing. *)
Theorem X3_tracker_only_at_slot_0 :
  forall (loc : Z) (name : option string) (st : table),
    loc <> 0 ->
    exists n msg,
      add_device loc "tracker" name st = (Raise (AssemblerError n msg), st) /\
      201 <= n <= 205.
Proof.
  intros loc name st Hloc.
  unfold add_device, bind, lift, get_locations, get_devices, AsmError_NO_RET.
  change (negb (py_in "tracker" device_types)) with false. cbv iota.
  destruct ((loc <? 0) || (loc >? 11)) eqn:Erange;
    [eexists _, _; split; [reflexivity | lia] |].
  assert (0 <= loc <= 11) as Hr by lia.
  destruct (slot_hex_defined _ Hr) as [h ->].
  destruct (locations st !! h); [eexists _, _; split; [reflexivity | lia] |].
  destruct (opt_in_list _ special_names);
    [eexists _, _; split; [reflexivity | lia] |].
  destruct (opt_in_dict _ (devices st));
    [eexists _, _; split; [reflexivity | lia] |].
  replace (loc =? 0) with false by lia.
  eexists _, _; split; [reflexivity | lia].
Qed.

Lemma X3_tracker_only_at_slot_0_witness :
  exists n msg,
    add_device 5 "tracker" None reset_table =
      (Raise (AssemblerError n msg), reset_table) /\
    201 <= n <= 205.
Proof. apply (X3_tracker_only_at_slot_0 5 None reset_table). lia. Defined.

(** ** Motors *)

Lemma motor_types (dtype : string) :
  is_motor dtype = true ->
  exists code, device_types !! dtype = Some code /\ (code = 8 \/ code = 9) /\
               device_storage !! dtype = Some 9.
Proof.
  unfold is_motor. intros H. apply orb_true_iff in H.
  destruct H as [H | H]; apply String.eqb_eq in H; subst dtype.
  - exists 8. repeat split; auto.
  - exists 9. repeat split; auto.
Qed.

(** X4. A successful declaration of a motor at any slot binds the slot to
    the motor type, with storage 9, and marks the next slot (slot 0 after
    slot 11): the next slot then resolves to (0,0), and in every table
    reached by further declarations a declaration there with a recognized
    type fails with error 202, the message naming [motor_second]. *)
Theorem X4_motor_takes_two_slots :
  forall (st st' : table) (loc : Z) (dtype : string) (name : option string),
    is_motor dtype = true ->
    add_device loc dtype name st = (Ok true, st') ->
    (exists code, device_types !! dtype = Some code /\
                  get_location_type_and_size loc st' = Ok (code, 9)) /\
    get_location_type_and_size (motor_second_loc loc) st' = Ok (0, 0) /\
    forall (st'' : table) (dtype2 : string) (name2 : option string),
      declared_after st' st'' ->
      is_Some (device_types !! dtype2) ->
      add_device (motor_second_loc loc) dtype2 name2 st'' =
        (Raise (AssemblerError SlotAlreadyUsed
                  ("Location (" +:+ pretty (motor_second_loc loc)
                     +:+ ") is already used with a unit of type: motor_second")),
         st'').
Proof.
  intros st st' loc dtype name Hmotor Hadd.
  destruct (motor_types _ Hmotor) as (code & Hcode & _ & Hsize).
  pose proof (resolve_after_declare _ _ _ _ _ _ _ _ Hcode Hsize Hadd) as Hres.
  apply add_device_ok_inv in Hadd
    as (_ & _ & Hr & h & h2 & Eh & Eh2 & Hfree & Hfree2 & ->).
  destruct (motor_second_slot loc Hr) as [Hr2 Hne].
  assert (h <> h2) as Hh.
  { intros <-. apply Hne. exact (slot_hex_inj _ _ _ Hr2 Hr Eh2 Eh). }
  assert (locations (declared loc dtype name h h2 st) !! h2
          = Some ("motor_second", motor_second_loc loc)) as Hmarker.
  { unfold declared. cbn. rewrite Hmotor.
    rewrite lookup_insert_ne by exact Hh. apply lookup_insert_eq. }
  split; [exists code; split; assumption |]. split.
  - unfold get_location_type_and_size. rewrite Eh2. cbn [rbind].
    rewrite Hmarker. reflexivity.
  - intros st'' dtype2 name2 Hafter Hty.
    apply (declared_after_keeps_locations _ _ _ _ Hafter) in Hmarker.
    exact (add_device_occupied _ dtype2 name2 st'' h2 _ Hty Hr2 Eh2 Hmarker).
Qed.

Lemma X4_motor_takes_two_slots_witness :
  (exists code, device_types !! "motor-a" = Some code /\
                get_location_type_and_size 11 motor_table = Ok (code, 9)) /\
  get_location_type_and_size (motor_second_loc 11) motor_table = Ok (0, 0) /\
  forall (st'' : table) (dtype2 : string) (name2 : option string),
    declared_after motor_table st'' ->
    is_Some (device_types !! dtype2) ->
    add_device (motor_second_loc 11) dtype2 name2 st'' =
      (Raise (AssemblerError SlotAlreadyUsed
                ("Location (" +:+ pretty (motor_second_loc 11)
                   +:+ ") is already used with a unit of type: motor_second")),
       st'').
Proof.
  apply (X4_motor_takes_two_slots reset_table motor_table 11 "motor-a"
           (Some "Left")).
  - reflexivity.
  - vm_compute. reflexivity.
Defined.

(** X5. When the slot of a motor is free and its name acceptable but the
    next slot is occupied, the declaration fails with error 206, the message
    naming the type of the occupant, and binds nothing. *)
Theorem X5_motor_second_slot_conflict :
  forall (st : table) (loc : Z) (dtype : string) (name : option string)
         (h h2 : string) (occupant : string * Z),
    is_motor dtype = true ->
    0 <= loc <= 11 ->
    str_index hexdigits loc = Ok h ->
    str_index hexdigits (motor_second_loc loc) = Ok h2 ->
    locations st !! h = None ->
    locations st !! h2 = Some occupant ->
    opt_in_list (recorded_name name) special_names = false ->
    opt_in_dict (recorded_name name) (devices st) = false ->
    add_device loc dtype name st =
      (Raise (AssemblerError MotorSecondarySlotConflict
                ("Motors require two locations yet the second location is already used with a "
                   +:+ fst occupant)),
       st).
Proof.
  intros st loc dtype name h h2 occupant Hmotor Hr Eh Eh2 Hfree Hocc Hs Hu.
  destruct (motor_types _ Hmotor) as (code & Hcode & _ & _).
  unfold add_device, claim_motor_second, bind, lift, get_locations, get_devices,
    AsmError_NO_RET.
  rewrite (proj2 (py_in_true dtype device_types) (ex_intro _ code Hcode)).
  cbn [negb]. replace ((loc <? 0) || (loc >? 11)) with false by lia.
  rewrite Eh, Hfree.
  change (if opt_truthy name then option_map lower name else name)
    with (recorded_name name).
  rewrite Hs, Hu.
  replace (String.eqb dtype "tracker") with false.
  2:{ unfold is_motor in Hmotor. apply orb_true_iff in Hmotor.
      destruct Hmotor as [H | H]; apply String.eqb_eq in H; subst; reflexivity. }
  cbn [andb]. rewrite Hmotor, Eh2, Hocc. reflexivity.
Qed.

Lemma X5_motor_second_slot_conflict_witness :
  add_device 2 "motor-b" (Some "Right") lamp_table =
    (Raise (AssemblerError MotorSecondarySlotConflict
              "Motors require two locations yet the second location is already used with a led"),
     lamp_table).
Proof.
  apply (X5_motor_second_slot_conflict lamp_table 2 "motor-b" (Some "Right")
           "2" "3" ("led", 3)); try reflexivity. lia.
Defined.

(** ** Device names *)

Lemma lower_char_idem (c : ascii) : lower_char (lower_char c) = lower_char c.
Proof. destruct c as [[] [] [] [] [] [] [] []]; reflexivity. Qed.

Lemma lower_idem (s : string) : lower (lower s) = lower s.
Proof.
  induction s as [| c s IH]; [reflexivity |].
  cbn [lower]. rewrite lower_char_idem, IH. reflexivity.
Qed.

Lemma truthy_lower (s : string) : truthy (lower s) = truthy s.
Proof. destruct s; reflexivity. Qed.

(** X6. Built-in names are refused whatever their case: with a recognized
    type at a free slot in [0,11], a name whose lower-case form is one of
    [_index], [_devices], [_timers], [_cpu] fails with error 203 and
    changes nothing. *)
Theorem X6_reserved_names_refused :
  forall (st : table) (loc : Z) (dtype name h : string),
    is_Some (device_types !! dtype) ->
    0 <= loc <= 11 ->
    str_index hexdigits loc = Ok h ->
    locations st !! h = None ->
    In (lower name) special_names ->
    add_device loc dtype (Some name) st =
      (Raise (AssemblerError ReservedNameCollision
                "DEVICE name can not be one of the built-in names ['_index', '_devices', '_timers', '_cpu']"),
       st).
Proof.
  intros st loc dtype name h Hty Hr Eh Hfree Hin.
  unfold add_device, bind, lift, get_locations, get_devices, AsmError_NO_RET.
  apply py_in_true in Hty. rewrite Hty. cbn [negb].
  replace ((loc <? 0) || (loc >? 11)) with false by lia.
  rewrite Eh, Hfree.
  assert (truthy name = true) as Ht.
  { rewrite <- truthy_lower.
    cbn in Hin. destruct Hin as [<- | [<- | [<- | [<- | []]]]]; reflexivity. }
  cbn [opt_truthy option_map]. rewrite Ht. cbn [opt_in_list option_map].
  replace (existsb (String.eqb (lower name)) special_names) with true;
    [reflexivity |].
  symmetry. apply existsb_exists. exists (lower name).
  split; [exact Hin | apply String.eqb_refl].
Qed.

Lemma X6_reserved_names_refused_witness :
  add_device 4 "led" (Some "_CPU") reset_table =
    (Raise (AssemblerError ReservedNameCollision
              "DEVICE name can not be one of the built-in names ['_index', '_devices', '_timers', '_cpu']"),
     reset_table).
Proof.
  apply (X6_reserved_names_refused reset_table 4 "led" "_CPU" "4").
  - exists 10. reflexivity.
  - lia.
  - reflexivity.
  - reflexivity.
  - right; right; right; left. reflexivity.
Defined.

Lemma add_device_keeps_devices loc dtype name st r st' k v :
  add_device loc dtype name st = (r, st') ->
  devices st !! k = Some v -> devices st' !! k = Some v.
Proof.
  intros Hadd Hk. destruct r as [b | e].
  - destruct (add_device_ok_conditions _ _ _ _ _ _ Hadd) as (_ & Hu & _).
    apply add_device_ok_inv in Hadd
      as (_ & _ & _ & h & h2 & _ & _ & _ & _ & ->).
    unfold declared. cbn [devices].
    destruct (recorded_name name) as [n |]; [| exact Hk].
    destruct (truthy n); [| exact Hk].
    rewrite lookup_insert_ne; [exact Hk |].
    intros ->. cbn in Hu. unfold py_in in Hu. rewrite Hk in Hu. discriminate.
  - apply add_device_raise_unchanged in Hadd. subst st'. exact Hk.
Qed.

Lemma declared_after_keeps_devices st st' k v :
  declared_after st st' ->
  devices st !! k = Some v -> devices st' !! k = Some v.
Proof.
  induction 1 as [| st1 loc dtype name r st2 _ IH Hadd]; intros Hk.
  - exact Hk.
  - exact (add_device_keeps_devices _ _ _ _ _ _ _ _ Hadd (IH Hk)).
Qed.

(** X7. A non-empty name given to a successful declaration is recorded in
    lower case; from then on, in every table reached by further
    declarations, declaring a device under a name that differs at most in
    case (recognized type, free slot in [0,11]) fails with error 204 and
    changes nothing. *)
Theorem X7_device_names_unique :
  forall (st st' : table) (loc : Z) (dtype name : string),
    truthy name = true ->
    add_device loc dtype (Some name) st = (Ok true, st') ->
    devices st' !! lower name = Some (dtype, loc) /\
    forall (st'' : table) (loc2 : Z) (dtype2 name2 h2 : string),
      declared_after st' st'' ->
      lower name2 = lower name ->
      is_Some (device_types !! dtype2) ->
      0 <= loc2 <= 11 ->
      str_index hexdigits loc2 = Ok h2 ->
      locations st'' !! h2 = None ->
      add_device loc2 dtype2 (Some name2) st'' =
        (Raise (AssemblerError NameAlreadyUsed
                  ("DEVICE name already used: " +:+ lower name)),
         st'').
Proof.
  intros st st' loc dtype name Ht Hadd.
  destruct (add_device_ok_conditions _ _ _ _ _ _ Hadd) as (Hs & _ & _).
  apply add_device_ok_inv in Hadd
    as (_ & _ & _ & h & h2 & _ & _ & _ & _ & ->).
  assert (recorded_name (Some name) = Some (lower name)) as Hrec
    by (unfold recorded_name; cbn; rewrite Ht; reflexivity).
  rewrite Hrec in Hs.
  assert (devices (declared loc dtype (Some name) h h2 st) !! lower name
          = Some (dtype, loc)) as Hbound.
  { unfold declared. cbn [devices]. rewrite Hrec, truthy_lower, Ht.
    apply lookup_insert_eq. }
  split; [exact Hbound |].
  intros st'' loc2 dtype2 name2 h2' Hafter Hsame Hty Hr Eh Hfree.
  apply (declared_after_keeps_devices _ _ _ _ Hafter) in Hbound.
  unfold add_device, bind, lift, get_locations, get_devices, AsmError_NO_RET.
  apply py_in_true in Hty. rewrite Hty. cbn [negb].
  replace ((loc2 <? 0) || (loc2 >? 11)) with false by lia.
  rewrite Eh, Hfree.
  assert (truthy name2 = true) as Ht2
    by (rewrite <- truthy_lower, Hsame, truthy_lower; exact Ht).
  cbn [opt_truthy option_map]. rewrite Ht2, Hsame. rewrite Hs.
  cbn [opt_in_dict]. unfold py_in. rewrite Hbound. reflexivity.
Qed.

Lemma X7_device_names_unique_witness :
  devices lamp_table !! lower "Lamp" = Some ("led", 3) /\
  forall (st'' : table) (loc2 : Z) (dtype2 name2 h2 : string),
    declared_after lamp_table st'' ->
    lower name2 = lower "Lamp" ->
    is_Some (device_types !! dtype2) ->
    0 <= loc2 <= 11 ->
    str_index hexdigits loc2 = Ok h2 ->
    locations st'' !! h2 = None ->
    add_device loc2 dtype2 (Some name2) st'' =
      (Raise (AssemblerError NameAlreadyUsed
                ("DEVICE name already used: " +:+ lower "Lamp")),
       st'').
Proof.
  apply (X7_device_names_unique reset_table lamp_table 3 "led" "Lamp").
  - reflexivity.
  - vm_compute. reflexivity.
Defined.

(** X8. A name that is the empty string is no name: when the table has no
    device under the empty string, [add_device] with the name [""] does
    what it does without a name, failures included. *)
Theorem X8_empty_name_is_no_name :
  forall (st : table) (loc : Z) (dtype : string),
    devices st !! "" = None ->
    add_device loc dtype (Some "") st = add_device loc dtype None st.
Proof.
  intros st loc dtype Hnone.
  unfold add_device, bind, lift, get_locations, get_devices, AsmError_NO_RET.
  destruct (negb (py_in dtype device_types)); [reflexivity |].
  destruct ((loc <? 0) || (loc >? 11)); [reflexivity |].
  destruct (str_index hexdigits loc) as [h | e]; [| reflexivity].
  destruct (locations st !! h); [reflexivity |].
  cbn [opt_truthy truthy opt_in_list opt_in_dict].
  unfold py_in. rewrite Hnone.
  change (existsb (String.eqb "") special_names) with false. cbv iota.
  destruct (String.eqb dtype "tracker" && negb (loc =? 0)); [reflexivity |].
  destruct (claim_motor_second loc dtype st) as [[[] | e] st1]; reflexivity.
Qed.

Lemma X8_empty_name_is_no_name_witness :
  add_device 3 "led" (Some "") reset_table = add_device 3 "led" None reset_table.
Proof. apply (X8_empty_name_is_no_name reset_table 3 "led"). reflexivity. Defined.

(** ** What reachable tables keep *)

Lemma reset_locations_cases k v :
  reset_locations !! k = Some v ->
  (k, v) ∈ [("c", ("index", 12)); ("d", ("devices", 13));
            ("e", ("timers", 14)); ("f", ("cpu", 15))].
Proof. intros H. apply elem_of_list_to_map_2 in H. exact H. Qed.

Lemma reset_devices_cases k v :
  reset_devices !! k = Some v ->
  (k, v) ∈ [("_index", ("index", 12)); ("_devices", ("devices", 13));
            ("_timers", ("timers", 14)); ("_cpu", ("cpu", 15))].
Proof. intros H. apply elem_of_list_to_map_2 in H. exact H. Qed.

Ltac each_entry H :=
  repeat (apply elem_of_cons in H; destruct H as [H | H];
          [inversion H; subst; clear H |]);
  [.. | apply elem_of_nil in H; destruct H].

Lemma reset_table_consistent : table_consistent reset_table.
Proof.
  split; [| split].
  - intros k dt n Hk. apply reset_locations_cases in Hk.
    each_entry Hk; (split; [lia | reflexivity]).
  - intros name dt n Hk. apply reset_devices_cases in Hk.
    each_entry Hk; (split; [reflexivity |]); (split; [reflexivity |]);
      eexists; split; reflexivity.
  - intros n1 n2 d1 d2 l H1 H2.
    apply reset_devices_cases in H1. apply reset_devices_cases in H2.
    each_entry H1; each_entry H2; reflexivity.
Qed.

Lemma declared_consistent loc dtype name h h2 st :
  0 <= loc <= 11 ->
  str_index hexdigits loc = Ok h ->
  str_index hexdigits (motor_second_loc loc) = Ok h2 ->
  locations st !! h = None ->
  (is_motor dtype = true -> locations st !! h2 = None) ->
  table_consistent st ->
  table_consistent (declared loc dtype name h h2 st).
Proof.
  intros Hr Eh Eh2 Hfree Hfree2 (Hloc & Hdev & Hone).
  destruct (motor_second_slot loc Hr) as [Hr2 _].
  assert (forall k v, locations st !! k = Some v ->
            locations (declared loc dtype name h h2 st) !! k = Some v) as Hkeep
    by (intros k v; apply declared_keeps; assumption).
  split; [| split].
  - intros k dt n. unfold declared. cbn [locations].
    destruct (decide (h = k)) as [<- | Hne].
    { rewrite lookup_insert_eq. intros [= <- <-]. split; [lia | exact Eh]. }
    rewrite lookup_insert_ne by exact Hne.
    destruct (is_motor dtype); [| apply Hloc].
    destruct (decide (h2 = k)) as [<- | Hne2].
    { rewrite lookup_insert_eq. intros [= <- <-]. split; [lia | exact Eh2]. }
    rewrite lookup_insert_ne by exact Hne2. apply Hloc.
  - intros nm dt n. unfold declared at 1. cbn [devices].
    assert (devices st !! nm = Some (dt, n) ->
            truthy nm = true /\ lower nm = nm /\
            exists h0, str_index hexdigits n = Ok h0 /\
              locations (declared loc dtype name h h2 st) !! h0 = Some (dt, n))
      as Hold.
    { intros Hnm. destruct (Hdev _ _ _ Hnm) as (Ht & Hl & h0 & Eh0 & Hl0).
      split; [exact Ht |]. split; [exact Hl |].
      exists h0. split; [exact Eh0 | apply Hkeep; exact Hl0]. }
    unfold recorded_name.
    destruct name as [nm0 |]; cbn [opt_truthy option_map]; [| exact Hold].
    destruct (truthy nm0) eqn:Ht0; [| rewrite Ht0; exact Hold].
    rewrite truthy_lower, Ht0.
    destruct (decide (lower nm0 = nm)) as [<- | Hne].
    + rewrite lookup_insert_eq. intros [= <- <-].
      split; [rewrite truthy_lower; exact Ht0 |].
      split; [apply lower_idem |].
      exists h. split; [exact Eh | apply declared_lookup].
    + rewrite lookup_insert_ne by exact Hne. exact Hold.
  - assert (forall nm d, devices st !! nm = Some (d, loc) -> False) as Hfresh.
    { intros nm d Hnm. destruct (Hdev _ _ _ Hnm) as (_ & _ & h0 & Eh0 & Hl0).
      rewrite Eh in Eh0. inversion Eh0; subst h0. congruence. }
    intros n1 n2 d1 d2 l. unfold declared. cbn [devices].
    destruct (recorded_name name) as [nm0 |]; [| apply Hone].
    destruct (truthy nm0); [| apply Hone].
    destruct (decide (nm0 = n1)) as [<- | Hne1];
      destruct (decide (nm0 = n2)) as [<- | Hne2]; try reflexivity.
    + rewrite lookup_insert_eq, lookup_insert_ne by exact Hne2.
      intros [= <- <-] H2. destruct (Hfresh _ _ H2).
    + rewrite lookup_insert_eq, lookup_insert_ne by exact Hne1.
      intros H1 [= <- <-]. destruct (Hfresh _ _ H1).
    + rewrite !lookup_insert_ne by assumption. apply Hone.
Qed.

Lemma reachable_consistent st : reachable st -> table_consistent st.
Proof.
  induction 1 as [| st r st' _ IH Hreset | st loc dtype name r st' _ IH Hadd].
  - split; [| split]; intros *; cbn; rewrite lookup_empty; discriminate.
  - inversion Hreset; subst. exact reset_table_consistent.
  - destruct r as [b | e].
    + apply add_device_ok_inv in Hadd
        as (_ & _ & Hr & h & h2 & Eh & Eh2 & Hfree & Hfree2 & ->).
      apply declared_consistent; assumption.
    + apply add_device_raise_unchanged in Hadd. subst st'. exact IH.
Qed.

(** X9. In every reachable table a binding of [locations] is stored under
    the hex digit of its own location number, which lies in [0,15]. *)
Theorem X9_locations_keyed_by_hex_digit :
  forall (st : table) (k dtype : string) (n : Z),
    reachable st ->
    locations st !! k = Some (dtype, n) ->
    0 <= n <= 15 /\ str_index hexdigits n = Ok k.
Proof.
  intros st k dtype n Hreach Hk.
  exact (proj1 (reachable_consistent st Hreach) k dtype n Hk).
Qed.

Lemma reachable_motor_table : reachable motor_table.
Proof.
  apply (reach_add reset_table 11 "motor-a" (Some "Left") (Ok true)).
  - exact (reach_reset initial_table (Ok tt) reset_table reach_initial eq_refl).
  - vm_compute. reflexivity.
Qed.

Lemma X9_locations_keyed_by_hex_digit_witness :
  0 <= 0 <= 15 /\ str_index hexdigits 0 = Ok "0".
Proof.
  apply (X9_locations_keyed_by_hex_digit motor_table "0" "motor_second" 0).
  - exact reachable_motor_table.
  - reflexivity.
Defined.

(** X10. In every reachable table a device name is a non-empty lower-case
    string, and the location it is bound to holds the same type and
    number in [locations]. *)
Theorem X10_device_names_point_to_locations :
  forall (st : table) (name dtype : string) (n : Z),
    reachable st ->
    devices st !! name = Some (dtype, n) ->
    truthy name = true /\ lower name = name /\
    exists h, str_index hexdigits n = Ok h /\
              locations st !! h = Some (dtype, n).
Proof.
  intros st name dtype n Hreach Hk.
  exact (proj1 (proj2 (reachable_consistent st Hreach)) name dtype n Hk).
Qed.

Lemma X10_device_names_point_to_locations_witness :
  truthy "left" = true /\ lower "left" = "left" /\
  exists h, str_index hexdigits 11 = Ok h /\
            locations motor_table !! h = Some ("motor-a", 11).
Proof.
  apply (X10_device_names_point_to_locations motor_table "left" "motor-a" 11).
  - exact reachable_motor_table.
  - reflexivity.
Defined.

(** X11. In every reachable table at most one device name is bound to a
    location, which is what [dump_devices] relies on when it stops at the
    first name it finds for a location. *)
Theorem X11_one_name_per_location :
  forall (st : table) (n1 n2 d1 d2 : string) (l : Z),
    reachable st ->
    devices st !! n1 = Some (d1, l) ->
    devices st !! n2 = Some (d2, l) ->
    n1 = n2.
Proof.
  intros st n1 n2 d1 d2 l Hreach H1 H2.
  exact (proj2 (proj2 (reachable_consistent st Hreach)) n1 n2 d1 d2 l H1 H2).
Qed.

Lemma X11_one_name_per_location_witness : "left" = "left".
Proof.
  apply (X11_one_name_per_location motor_table "left" "left" "motor-a"
           "motor-a" 11).
  - exact reachable_motor_table.
  - reflexivity.
  - reflexivity.
Defined.

(** X12. The reserved bindings are never overridden: in every table
    reached from the reset table by declarations, the four built-in device
    names and the four reserved locations are bound as [reset] bound
    them. *)
Theorem X12_reserved_bindings_persist :
  forall st : table,
    declared_after reset_table st ->
    (forall k v, reset_devices !! k = Some v -> devices st !! k = Some v) /\
    (forall k v, reset_locations !! k = Some v -> locations st !! k = Some v).
Proof.
  intros st Hafter. split; intros k v Hk.
  - exact (declared_after_keeps_devices reset_table st k v Hafter Hk).
  - exact (declared_after_keeps_locations reset_table st k v Hafter Hk).
Qed.

Lemma declared_after_motor_table : declared_after reset_table motor_table.
Proof.
  apply (after_step reset_table reset_table 11 "motor-a" (Some "Left") (Ok true)).
  - apply after_refl.
  - vm_compute. reflexivity.
Qed.

Lemma X12_reserved_bindings_persist_witness :
  (forall k v, reset_devices !! k = Some v -> devices motor_table !! k = Some v) /\
  (forall k v, reset_locations !! k = Some v ->
               locations motor_table !! k = Some v).
Proof.
  apply (X12_reserved_bindings_persist motor_table).
  exact declared_after_motor_table.
Defined.



(** X14. A successful declaration changes what the other slots resolve to
    in no way: for every slot in [0,11] other than the declared one and,
    for a motor, the one after it, [get_location_type_and_size] returns
    what it returned before. *)
Theorem X14_declaration_leaves_other_slots :
  forall (st st' : table) (loc loc' : Z) (dtype : string) (name : option string),
    add_device loc dtype name st = (Ok true, st') ->
    0 <= loc' <= 11 ->
    loc' <> loc ->
    (is_motor dtype = true -> loc' <> motor_second_loc loc) ->
    get_location_type_and_size loc' st' = get_location_type_and_size loc' st.
Proof.
  intros st st' loc loc' dtype name Hadd Hr' Hne Hne2.
  apply add_device_ok_inv in Hadd
    as (_ & _ & Hr & h & h2 & Eh & Eh2 & _ & _ & ->).
  destruct (motor_second_slot loc Hr) as [Hr2 _].
  destruct (slot_hex_defined loc' Hr') as [h' Eh'].
  unfold get_location_type_and_size. rewrite Eh'. cbn [rbind].
  replace (locations (declared loc dtype name h h2 st) !! h')
    with (locations st !! h'); [reflexivity |].
  unfold declared. cbn [locations].
  rewrite lookup_insert_ne
    by (intros ->; apply Hne; exact (slot_hex_inj _ _ _ Hr' Hr Eh' Eh)).
  destruct (is_motor dtype); [| reflexivity].
  rewrite lookup_insert_ne; [reflexivity |].
  intros ->. apply (Hne2 eq_refl). exact (slot_hex_inj _ _ _ Hr' Hr2 Eh' Eh2).
Qed.

Lemma X14_declaration_leaves_other_slots_witness :
  get_location_type_and_size 3 motor_table =
  get_location_type_and_size 3 reset_table.
Proof.
  apply (X14_declaration_leaves_other_slots reset_table motor_table 11 3
           "motor-a" (Some "Left")).
  - vm_compute. reflexivity.
  - lia.
  - lia.
  - intros _. vm_compute. discriminate.
Defined.

(** X15. After [reset_devices_and_locations], whatever the table was,
    every slot in [0,11] resolves to (0,0) and accepts a declaration of
    every recognized device type, a tracker at slot 0 only. *)
Theorem X15_reset_frees_every_slot :
  forall (st0 st : table) (loc : Z) (dtype : string),
    reset_devices_and_locations st0 = (Ok tt, st) ->
    0 <= loc <= 11 ->
    is_Some (device_types !! dtype) ->
    (dtype = "tracker" -> loc = 0) ->
    get_location_type_and_size loc st = Ok (0, 0) /\
    fst (add_device loc dtype None st) = Ok true.
Proof.
  intros st0 st loc dtype Hreset Hr Hty Htracker.
  inversion Hreset; subst st. split.
  - each_slot loc; reflexivity.
  - exact (add_device_on_reset_table loc dtype Hr Hty Htracker).
Qed.

Lemma X15_reset_frees_every_slot_witness :
  get_location_type_and_size 7 reset_table = Ok (0, 0) /\
  fst (add_device 7 "beeper" None reset_table) = Ok true.
Proof.
  apply (X15_reset_frees_every_slot motor_table reset_table 7 "beeper").
  - reflexivity.
  - lia.
  - exists 7. reflexivity.
  - intros H. discriminate H.
Defined.

(** ** References written as two hex digits *)

Lemma hexdigit_cases (c : ascii) :
  char_in c hexdigits = true ->
  In c ["0"; "1"; "2"; "3"; "4"; "5"; "6"; "7"; "8"; "9"; "a"; "b"; "c"; "d";
        "e"; "f"; "A"; "B"; "C"; "D"; "E"; "F"]%char.
Proof.
  destruct c as [[] [] [] [] [] [] [] []]; intros H; try discriminate H;
    cbn; tauto.
Qed.

Ltac each_hexdigit H :=
  cbn [In] in H;
  repeat (destruct H as [H | H]; [subst |]); [.. | destruct H].

(** X16. A reference that is exactly two hex digits, in either case, is
    the byte they spell: in every table, whatever it binds, [parse_mod_reg]
    returns 16 times the first digit plus the second, a value in
    [0,255]. *)
Theorem X16_two_hex_digits_are_the_address :
  forall (a b : ascii) (st : table),
    char_in a hexdigits = true ->
    char_in b hexdigits = true ->
    exists da db,
      digit_value a = Some da /\ digit_value b = Some db /\
      parse_mod_reg (String a (String b EmptyString)) st = Ok (16 * da + db) /\
      0 <= 16 * da + db <= 255.
Proof.
  intros a b st Ha Hb.
  apply hexdigit_cases in Ha. apply hexdigit_cases in Hb.
  each_hexdigit Ha; each_hexdigit Hb;
    eexists _, _;
    (split; [vm_compute; reflexivity |]);
    (split; [vm_compute; reflexivity |]);
    (split; [vm_compute; reflexivity | lia]).
Qed.

Lemma X16_two_hex_digits_are_the_address_witness :
  exists da db,
    digit_value "3" = Some da /\ digit_value "F" = Some db /\
    parse_mod_reg "3F" motor_table = Ok (16 * da + db) /\
    0 <= 16 * da + db <= 255.
Proof.
  apply (X16_two_hex_digits_are_the_address "3" "F" motor_table); reflexivity.
Defined.

(** ** References in colon form *)

(** The resolver on [subject:regpart]: both parts are lower-cased, then the
    subject is looked up and the register part resolved. *)
Lemma parse_mod_reg_colon_parts st subject regpart :
  char_in ":" subject = false ->
  char_in ":" regpart = false ->
  parse_mod_reg (subject +:+ ":" +:+ regpart) st =
    let? (dtype, loc) :=
      match devices st !! lower subject with
      | Some d => Ok d
      | None =>
          match locations st !! lower subject with
          | Some l => Ok l
          | None =>
              AsmError_NO_RET 213
                ("Didn't understand the module name/number: " +:+ lower subject)
          end
      end in
    let? regs := subscript registers dtype in
    match regs !! lower regpart with
    | Some reg => Ok (fst reg + Z.shiftl loc 4)
    | None =>
        if str_contains (lower regpart) "0123456789abcdef" then
          let? digit := py_int (lower regpart) 16 in
          Ok (digit + Z.shiftl loc 4)
        else
          AsmError_NO_RET 214
            ("Didn't understand the register name/number: " +:+ lower regpart)
    end.
Proof.
  intros Hsub Hreg. unfold parse_mod_reg.
  rewrite (colon_not_two_hex_digits _ (char_in_app_colon subject regpart)).
  rewrite (char_in_app_colon subject regpart).
  rewrite lower_app.
  change (lower (":" +:+ regpart)) with (":" +:+ lower regpart).
  cbn [split].
  rewrite split_at_first_colon by (rewrite char_in_lower_colon; exact Hsub).
  rewrite split_at_absent by (rewrite char_in_lower_colon; exact Hreg).
  reflexivity.
Qed.

(** X17. References are read without regard to case: for a subject and a
    register part without colons, [subject:regpart] resolves, or fails,
    exactly as its lower-case form does. *)
Theorem X17_references_ignore_case :
  forall (st : table) (subject regpart : string),
    char_in ":" subject = false ->
    char_in ":" regpart = false ->
    parse_mod_reg (subject +:+ ":" +:+ regpart) st =
    parse_mod_reg (lower subject +:+ ":" +:+ lower regpart) st.
Proof.
  intros st subject regpart Hsub Hreg.
  rewrite (parse_mod_reg_colon_parts st subject regpart Hsub Hreg).
  rewrite (parse_mod_reg_colon_parts st (lower subject) (lower regpart))
    by (rewrite char_in_lower_colon; assumption).
  rewrite !lower_idem. reflexivity.
Qed.

Lemma X17_references_ignore_case_witness :
  parse_mod_reg ("LEFT" +:+ ":" +:+ "Status") motor_table =
  parse_mod_reg (lower "LEFT" +:+ ":" +:+ lower "Status") motor_table.
Proof.
  apply (X17_references_ignore_case motor_table "LEFT" "Status"); reflexivity.
Defined.

(** X18. A reference with two or more colons fails with error 212, the
    message carrying the text as written; a reference with no colon that
    is not two hex digits fails with error 215, likewise; and a colon-form
    reference whose lower-cased subject is neither a device name nor a
    location identifier fails with error 213, naming the lower-cased
    subject. *)
Theorem X18_malformed_and_unknown_references :
  forall st : table,
    (forall a b c : string,
        char_in ":" a = false -> char_in ":" b = false ->
        parse_mod_reg (a +:+ ":" +:+ b +:+ ":" +:+ c) st =
          Raise (AssemblerError 212
                   ("Invalid mod/reg syntax: " +:+ a +:+ ":" +:+ b +:+ ":" +:+ c)))
    /\ (forall s : string,
          char_in ":" s = false ->
          (len s =? 2) && char_in (char_at 0 s) hexdigits
                       && char_in (char_at 1 s) hexdigits = false ->
          parse_mod_reg s st =
            Raise (AssemblerError 215
                     ("Error - can't parse " +:+ s +:+ " as a modreg")))
    /\ (forall subject regpart : string,
          char_in ":" subject = false -> char_in ":" regpart = false ->
          devices st !! lower subject = None ->
          locations st !! lower subject = None ->
          parse_mod_reg (subject +:+ ":" +:+ regpart) st =
            Raise (AssemblerError UnknownModuleReference
                     ("Didn't understand the module name/number: "
                        +:+ lower subject))).
Proof.
  intros st. split; [| split].
  - intros a b c Ha Hb. unfold parse_mod_reg.
    rewrite (colon_not_two_hex_digits _ (char_in_app_colon a _)).
    rewrite (char_in_app_colon a _).
    rewrite lower_app.
    change (lower (":" +:+ b +:+ ":" +:+ c))
      with (":" +:+ lower (b +:+ ":" +:+ c)).
    rewrite lower_app.
    change (lower (":" +:+ c)) with (":" +:+ lower c).
    cbn [split].
    rewrite split_at_first_colon by (rewrite char_in_lower_colon; exact Ha).
    rewrite split_at_first_colon by (rewrite char_in_lower_colon; exact Hb).
    reflexivity.
  - intros s Hs Htwo. unfold parse_mod_reg. rewrite Htwo, Hs. reflexivity.
  - intros subject regpart Hsub Hreg Hdev Hloc.
    rewrite (parse_mod_reg_colon_parts st subject regpart Hsub Hreg).
    rewrite Hdev, Hloc. reflexivity.
Qed.

Lemma X18_malformed_and_unknown_references_witness :
  parse_mod_reg ("a" +:+ ":" +:+ "b" +:+ ":" +:+ "c:d") motor_table =
    Raise (AssemblerError 212 "Invalid mod/reg syntax: a:b:c:d") /\
  parse_mod_reg "left" motor_table =
    Raise (AssemblerError 215 "Error - can't parse left as a modreg") /\
  parse_mod_reg ("Right" +:+ ":" +:+ "status") motor_table =
    Raise (AssemblerError UnknownModuleReference
             "Didn't understand the module name/number: right").
Proof.
  destruct (X18_malformed_and_unknown_references motor_table)
    as (H212 & H215 & H213).
  split; [| split].
  - apply (H212 "a" "b" "c:d"); reflexivity.
  - apply (H215 "left"); reflexivity.
  - apply (H213 "Right" "status"); reflexivity.
Defined.

Lemma register_offsets_all :
  map_Forall (fun _ (regs : gmap string (Z * Z)) =>
                map_Forall (fun _ (reg : Z * Z) => 0 <= reg.1 <= 14) regs)
             registers.
Proof. apply (bool_decide_unpack _). vm_compute. reflexivity. Qed.

Lemma register_offset_fits dtype regs name reg :
  registers !! dtype = Some regs ->
  regs !! name = Some reg ->
  0 <= fst reg <= 14.
Proof.
  intros Hregs Hname.
  exact (register_offsets_all dtype regs Hregs name reg Hname).
Qed.

Lemma address_byte_nibbles (off loc : Z) :
  0 <= off <= 14 -> 0 <= loc <= 15 ->
  off + Z.shiftl loc 4 = Z.lor off (Z.shiftl loc 4) /\
  0 <= off + Z.shiftl loc 4 <= 255 /\
  Z.shiftr (off + Z.shiftl loc 4) 4 = loc /\
  Z.land (off + Z.shiftl loc 4) 15 = off.
Proof.
  intros Hoff Hloc.
  assert (loc = 0 \/ loc = 1 \/ loc = 2 \/ loc = 3 \/ loc = 4 \/ loc = 5 \/
          loc = 6 \/ loc = 7 \/ loc = 8 \/ loc = 9 \/ loc = 10 \/ loc = 11 \/
          loc = 12 \/ loc = 13 \/ loc = 14 \/ loc = 15) as Hl by lia.
  assert (off = 0 \/ off = 1 \/ off = 2 \/ off = 3 \/ off = 4 \/ off = 5 \/
          off = 6 \/ off = 7 \/ off = 8 \/ off = 9 \/ off = 10 \/ off = 11 \/
          off = 12 \/ off = 13 \/ off = 14) as Ho by lia.
  clear Hoff Hloc.
  repeat (destruct Hl as [Hl | Hl]); subst loc;
    repeat (destruct Ho as [Ho | Ho]); subst off;
    vm_compute; repeat split; intros H; discriminate H.
Qed.

(** X19. In every reachable table, a colon-form reference whose subject is
    a device name, or else a location identifier, and whose register part
    names a register of the device's type resolves to one byte: the
    register's offset in the low nibble and the location number in the
    high nibble, so that the sum the code computes is also their bitwise
    or. *)
Theorem X19_resolved_address_is_a_byte :
  forall (st : table) (subject regpart dtype : string) (loc : Z)
         (regs : gmap string (Z * Z)) (reg : Z * Z),
    reachable st ->
    char_in ":" subject = false ->
    char_in ":" regpart = false ->
    devices st !! lower subject = Some (dtype, loc) \/
    (devices st !! lower subject = None /\
     locations st !! lower subject = Some (dtype, loc)) ->
    registers !! dtype = Some regs ->
    regs !! lower regpart = Some reg ->
    exists address,
      parse_mod_reg (subject +:+ ":" +:+ regpart) st = Ok address /\
      address = Z.lor (fst reg) (Z.shiftl loc 4) /\
      0 <= address <= 255 /\
      Z.shiftr address 4 = loc /\
      Z.land address 15 = fst reg.
Proof.
  intros st subject regpart dtype loc regs reg Hreach Hsub Hreg Hres Hregs Hname.
  destruct (reachable_consistent st Hreach) as (Hloc & Hdev & _).
  assert (0 <= loc <= 15) as Hr.
  { destruct Hres as [Hd | [_ Hl]].
    - destruct (Hdev _ _ _ Hd) as (_ & _ & h & _ & Hl).
      exact (proj1 (Hloc _ _ _ Hl)).
    - exact (proj1 (Hloc _ _ _ Hl)). }
  destruct (address_byte_nibbles (fst reg) loc
              (register_offset_fits _ _ _ _ Hregs Hname) Hr)
    as (Hor & Hbyte & Hhi & Hlo).
  exists (fst reg + Z.shiftl loc 4).
  split; [| repeat split; assumption || lia].
  exact (parse_mod_reg_register_name st subject dtype loc regs Hsub Hres Hregs
           regpart reg Hreg Hname).
Qed.

Lemma X19_resolved_address_is_a_byte_witness :
  exists address,
    parse_mod_reg ("Left" +:+ ":" +:+ "Distance") motor_table = Ok address /\
    address = Z.lor (fst (2, 2)) (Z.shiftl 11 4) /\
    0 <= address <= 255 /\
    Z.shiftr address 4 = 11 /\
    Z.land address 15 = fst (2, 2).
Proof.
  apply (X19_resolved_address_is_a_byte motor_table "Left" "Distance" "motor-a"
           11 (list_to_map [("status", (0, 1)); ("control", (1, 1));
                            ("distance", (2, 2))]) (2, 2)).
  - exact reachable_motor_table.
  - reflexivity.
  - reflexivity.
  - left. reflexivity.
  - reflexivity.
  - reflexivity.
Defined.

(** X20. Declare, then refer by name: after a successful declaration
    under a non-empty name without a colon, and in every table reached by
    further declarations, [name:register], in any case, resolves to the
    register's offset plus 16 times the declared slot, for every register
    of the declared type.  The name is looked up before the location
    identifiers, so this holds even for a name that is itself a hex
    digit. *)
Theorem X20_declare_then_refer_by_name :
  forall (st st' st'' : table) (loc : Z) (dtype name regpart : string)
         (regs : gmap string (Z * Z)) (reg : Z * Z),
    truthy name = true ->
    char_in ":" name = false ->
    add_device loc dtype (Some name) st = (Ok true, st') ->
    declared_after st' st'' ->
    registers !! dtype = Some regs ->
    char_in ":" regpart = false ->
    regs !! lower regpart = Some reg ->
    parse_mod_reg (name +:+ ":" +:+ regpart) st'' = Ok (fst reg + 16 * loc).
Proof.
  intros st st' st'' loc dtype name regpart regs reg Ht Hcolon Hadd Hafter
    Hregs Hreg Hname.
  apply add_device_ok_inv in Hadd
    as (_ & _ & _ & h & h2 & _ & _ & _ & _ & ->).
  assert (devices st'' !! lower name = Some (dtype, loc)) as Hbound.
  { apply (declared_after_keeps_devices _ _ _ _ Hafter).
    unfold declared, recorded_name. cbn [devices opt_truthy option_map].
    rewrite Ht, truthy_lower, Ht. apply lookup_insert_eq. }
  rewrite (parse_mod_reg_register_name st'' name dtype loc regs Hcolon
             (or_introl Hbound) Hregs regpart reg Hreg Hname).
  rewrite Z.shiftl_mul_pow2 by lia. f_equal. change (2 ^ 4) with 16. lia.
Qed.

Lemma X20_declare_then_refer_by_name_witness :
  parse_mod_reg ("Left" +:+ ":" +:+ "Distance") motor_table =
    Ok (fst (2, 2) + 16 * 11).
Proof.
  apply (X20_declare_then_refer_by_name reset_table motor_table motor_table 11
           "motor-a" "Left" "Distance"
           (list_to_map [("status", (0, 1)); ("control", (1, 1));
                         ("distance", (2, 2))]) (2, 2));
    try reflexivity.
  apply after_refl.
Defined.

Lemma slot_hex_plain (loc : Z) (h : string) :
  0 <= loc <= 11 -> str_index hexdigits loc = Ok h ->
  char_in ":" h = false /\ lower h = h.
Proof.
  intros Hr Eh. each_slot loc; vm_compute in Eh; inversion Eh; subst h;
    split; reflexivity.
Qed.

(** X21. Declare, then refer by slot: after a successful declaration, as
    long as no device is named by the hex digit of the declared slot,
    [digit:register] resolves to the register's offset plus 16 times the
    slot; and for a motor, a reference through the digit of its second
    slot, when no device is named by that digit, raises [KeyError] on
    [motor_second], which has no register map. *)
Theorem X21_declare_then_refer_by_slot :
  forall (st st' : table) (loc : Z) (dtype : string) (name : option string)
         (h h2 regpart : string),
    add_device loc dtype name st = (Ok true, st') ->
    str_index hexdigits loc = Ok h ->
    str_index hexdigits (motor_second_loc loc) = Ok h2 ->
    char_in ":" regpart = false ->
    (devices st' !! h = None ->
     forall regs reg,
       registers !! dtype = Some regs ->
       regs !! lower regpart = Some reg ->
       parse_mod_reg (h +:+ ":" +:+ regpart) st' = Ok (fst reg + 16 * loc))
    /\ (is_motor dtype = true ->
        devices st' !! h2 = None ->
        parse_mod_reg (h2 +:+ ":" +:+ regpart) st' =
          Raise (KeyError "motor_second")).
Proof.
  intros st st' loc dtype name h h2 regpart Hadd Eh Eh2 Hreg.
  apply add_device_ok_inv in Hadd
    as (_ & _ & Hr & h' & h2' & Eh' & Eh2' & _ & _ & ->).
  rewrite Eh in Eh'. inversion Eh'; subst h'. clear Eh'.
  rewrite Eh2 in Eh2'. inversion Eh2'; subst h2'. clear Eh2'.
  destruct (motor_second_slot loc Hr) as [Hr2 Hne].
  destruct (slot_hex_plain loc h Hr Eh) as [Hc Hl].
  destruct (slot_hex_plain _ h2 Hr2 Eh2) as [Hc2 Hl2].
  split.
  - intros Hnone regs reg Hregs Hname.
    assert (devices (declared loc dtype name h h2 st) !! lower h
              = Some (dtype, loc) \/
            (devices (declared loc dtype name h h2 st) !! lower h = None /\
             locations (declared loc dtype name h h2 st) !! lower h
               = Some (dtype, loc))) as Hres
      by (right; rewrite Hl; split; [exact Hnone | apply declared_lookup]).
    rewrite (parse_mod_reg_register_name _ h dtype loc regs Hc Hres Hregs
               regpart reg Hreg Hname).
    rewrite Z.shiftl_mul_pow2 by lia. f_equal. change (2 ^ 4) with 16. lia.
  - intros Hmotor Hnone.
    rewrite (parse_mod_reg_colon_parts _ h2 regpart Hc2 Hreg), Hl2, Hnone.
    assert (h <> h2) as Hh.
    { intros <-. apply Hne. exact (slot_hex_inj _ _ _ Hr2 Hr Eh2 Eh). }
    unfold declared at 1. cbn [locations]. rewrite Hmotor.
    rewrite lookup_insert_ne by exact Hh. rewrite lookup_insert_eq.
    reflexivity.
Qed.

Lemma X21_declare_then_refer_by_slot_witness :
  (devices motor_table !! "b" = None ->
   forall regs reg,
     registers !! "motor-a" = Some regs ->
     regs !! lower "control" = Some reg ->
     parse_mod_reg ("b" +:+ ":" +:+ "control") motor_table =
       Ok (fst reg + 16 * 11))
  /\ (is_motor "motor-a" = true ->
      devices motor_table !! "0" = None ->
      parse_mod_reg ("0" +:+ ":" +:+ "control") motor_table =
        Raise (KeyError "motor_second")).
Proof.
  apply (X21_declare_then_refer_by_slot reset_table motor_table 11 "motor-a"
           (Some "Left") "b" "0" "control"); reflexivity.
Defined.

(** X22. The built-in names always resolve: in every table reached from
    the reset table by declarations, [_index], [_devices], [_timers] and
    [_cpu], followed by a colon and a register name of the pseudo-device,
    resolve to the register's offset plus 16 times the reserved location
    (12 to 15). *)
Theorem X22_builtin_names_always_resolve :
  forall (st : table) (name dtype regpart : string) (n : Z)
         (regs : gmap string (Z * Z)) (reg : Z * Z),
    declared_after reset_table st ->
    reset_devices !! name = Some (dtype, n) ->
    registers !! dtype = Some regs ->
    char_in ":" regpart = false ->
    regs !! lower regpart = Some reg ->
    parse_mod_reg (name +:+ ":" +:+ regpart) st = Ok (fst reg + 16 * n) /\
    12 <= n <= 15.
Proof.
  intros st name dtype regpart n regs reg Hafter Hname Hregs Hreg Hr.
  assert (char_in ":" name = false /\ lower name = name /\ 12 <= n <= 15)
    as (Hc & Hl & Hn).
  { apply reset_devices_cases in Hname.
    each_entry Hname; (split; [reflexivity |]); (split; [reflexivity | lia]). }
  split; [| exact Hn].
  assert (devices st !! lower name = Some (dtype, n)) as Hbound
    by (rewrite Hl;
        exact (declared_after_keeps_devices reset_table st name _ Hafter Hname)).
  rewrite (parse_mod_reg_register_name st name dtype n regs Hc
             (or_introl Hbound) Hregs regpart reg Hreg Hr).
  rewrite Z.shiftl_mul_pow2 by lia. f_equal. change (2 ^ 4) with 16. lia.
Qed.

Lemma X22_builtin_names_always_resolve_witness :
  parse_mod_reg ("_cpu" +:+ ":" +:+ "PC") motor_table = Ok (fst (4, 2) + 16 * 15)
  /\ 12 <= 15 <= 15.
Proof.
  apply (X22_builtin_names_always_resolve motor_table "_cpu" "cpu" "PC" 15
           (list_to_map [("acc", (0, 2)); ("flags", (2, 1)); ("counter", (3, 1));
                         ("pc", (4, 2)); ("sp", (6, 2))]) (4, 2));
    try reflexivity.
  exact declared_after_motor_table.
Defined.

(** ** Character constants *)

Lemma append_cons (c : ascii) (s t : string) :
  String c s +:+ t = String c (s +:+ t).
Proof. reflexivity. Qed.

Lemma rev_string_snoc (s : string) (c : ascii) :
  rev_string (s +:+ chr1 c) = String c (rev_string s).
Proof.
  induction s as [| d s IH]; [reflexivity |].
  rewrite append_cons. cbn [rev_string]. rewrite IH. reflexivity.
Qed.

Lemma length_snoc (s : string) (c : ascii) :
  String.length (s +:+ chr1 c) = S (String.length s).
Proof.
  induction s as [| d s IH]; [reflexivity |].
  rewrite append_cons. cbn [String.length]. rewrite IH. reflexivity.
Qed.

Lemma drop_last_snoc (s : string) (c : ascii) : drop_last 1 (s +:+ chr1 c) = s.
Proof.
  unfold drop_last. rewrite length_snoc.
  replace (S (String.length s) - 1)%nat with (String.length s) by lia.
  induction s as [| d s IH]; [reflexivity |].
  rewrite append_cons. cbn [String.length substring]. rewrite IH. reflexivity.
Qed.

(** X23. A numeral wrapped in single quotes is a character constant: for
    every text [s], with the [string] flag on or off,
    [parse_bases] on ['s'] is [ord(s)], that is the code (0 to 255) of the
    character when [s] is one character, and [TypeError] when [s] is empty
    or longer; a lone quote character is a [TypeError] as well. *)
Theorem X23_single_quoted_numerals :
  forall (s : string) (flag : bool),
    parse_bases (VStr (chr1 squote +:+ s +:+ chr1 squote)) flag = ord s
    /\ (forall c : ascii,
          ord (chr1 c) = Ok (Z.of_nat (nat_of_ascii c)) /\
          0 <= Z.of_nat (nat_of_ascii c) <= 255)
    /\ (String.length s <> 1%nat -> ord s = Raise TypeError)
    /\ parse_bases (VStr (chr1 squote)) flag = Raise TypeError.
Proof.
  intros s flag. split; [| split; [| split]].
  - unfold parse_bases.
    change (chr1 squote +:+ s +:+ chr1 squote)
      with (String squote (s +:+ chr1 squote)).
    replace (startswith (String squote (s +:+ chr1 squote)) (chr1 squote))
      with true by (unfold startswith; cbn; destruct (s +:+ chr1 squote); reflexivity).
    replace (endswith (String squote (s +:+ chr1 squote)) (chr1 squote))
      with true.
    2:{ unfold endswith. cbn [rev_string]. rewrite rev_string_snoc.
        change (String squote (rev_string s) +:+ chr1 squote)
          with (String squote (rev_string s +:+ chr1 squote)).
        cbn. destruct (rev_string s +:+ chr1 squote); reflexivity. }
    cbn [andb]. unfold strip_ends. cbn [drop_first].
    rewrite drop_last_snoc. reflexivity.
  - intros c. split; [reflexivity |].
    pose proof (nat_ascii_bounded c). lia.
  - intros Hlen. destruct s as [| c [| d s]]; try reflexivity.
    cbn in Hlen. congruence.
  - destruct flag; reflexivity.
Qed.

Lemma X23_single_quoted_numerals_witness :
  ord "ab" = Raise TypeError.
Proof.
  apply (proj1 (proj2 (proj2 (X23_single_quoted_numerals "ab" false)))).
  cbn. congruence.
Defined.

(** X24. The tokenizer on a quoted character constant after an operator:
    the line [ld $'c'] gives the operator and one numeric constant holding
    the code of [c], for every character [c] but five.  A space, a tab, a
    comma, a [#] or a newline between the quotes is taken by the segment
    scan first, and the tokenizer raises [TypeError]. *)
Theorem X24_quoted_character_tokens :
  forall (c : ascii) (st : table),
    chop_line ("ld $'" +:+ chr1 c +:+ "'") st =
      if is_separator c || ends_scan c then Raise TypeError
      else Ok [mkWord "op" (VStr "ld");
               mkWord "const" (VInt (Z.of_nat (nat_of_ascii c)))].
Proof.
  intros c st. destruct c as [[] [] [] [] [] [] [] []]; vm_compute; reflexivity.
Qed.

(** ** Segments *)

Lemma forall_chars_snoc (p : ascii -> bool) (s : string) (c : ascii) :
  forall_chars p (s +:+ chr1 c) = forall_chars p s && p c.
Proof.
  induction s as [| d s IH].
  - cbn. apply andb_comm.
  - rewrite append_cons. cbn [forall_chars]. rewrite IH. apply andb_assoc.
Qed.

Lemma prechop_loop_truthy (line : string) :
  forall in_string in_escape components comp,
    Forall (fun s => truthy s = true) components ->
    Forall (fun s => truthy s = true)
           (fst (prechop_loop line in_string in_escape components comp)).
Proof.
  induction line as [| c rest IH]; intros in_string in_escape components comp
    Hcs; cbn [prechop_loop]; [exact Hcs |].
  repeat match goal with
         | |- Forall _ (fst (prechop_loop rest _ _ _ _)) => apply IH
         | |- Forall _ (fst (if ?b then _ else _)) => destruct b
         | |- Forall _ (fst (_, _)) => exact Hcs
         | |- Forall _ (if truthy ?s then _ else _) => destruct (truthy s) eqn:?
         | |- Forall _ (_ ++ [_]) =>
             apply Forall_app; split; [exact Hcs | constructor; [assumption | constructor]]
         | |- Forall _ components => exact Hcs
         end.
Qed.

Lemma prechop_loop_plain (line : string) :
  forall components comp,
    char_in dquote line = false ->
    Forall (fun s => forall_chars plain_char s = true) components ->
    forall_chars plain_char comp = true ->
    Forall (fun s => forall_chars plain_char s = true)
           (fst (prechop_loop line EmptyString false components comp))
    /\ forall_chars plain_char
         (snd (prechop_loop line EmptyString false components comp)) = true.
Proof.
  induction line as [| c rest IH]; intros components comp Hq Hcs Hcomp;
    cbn [prechop_loop]; [split; assumption |].
  cbn [char_in] in Hq. apply orb_false_iff in Hq as [Hc Hq].
  rewrite Ascii.eqb_sym in Hc.
  destruct (Ascii.eqb c newline) eqn:Enl; [split; assumption |].
  cbn [truthy andb negb]. rewrite andb_true_r.
  destruct (Ascii.eqb c "#") eqn:Ehash; [split; assumption |].
  rewrite Hc.
  change (Ascii.eqb c " " || Ascii.eqb c tab || Ascii.eqb c ",")
    with (is_separator c).
  destruct (is_separator c) eqn:Esep.
  - apply IH; [exact Hq | | reflexivity].
    destruct (truthy comp); [| exact Hcs].
    apply Forall_app. split; [exact Hcs | constructor; [exact Hcomp | constructor]].
  - apply IH; [exact Hq | exact Hcs |].
    rewrite forall_chars_snoc, Hcomp. unfold plain_char, ends_scan.
    rewrite Esep, Ehash, Enl. reflexivity.
Qed.

(** X25. Every segment [prechop_line] returns is non-empty (the test for
    empty segments in [chop_line] never fires); and when the line holds
    no double quote, no segment holds a space, a tab, a comma, a [#] or a
    newline. *)
Theorem X25_segments_are_clean :
  forall line : string,
    Forall (fun s => truthy s = true) (prechop_line line)
    /\ (char_in dquote line = false ->
        Forall (fun s => forall_chars
                           (fun c => negb (is_separator c || ends_scan c)) s
                         = true)
               (prechop_line line)).
Proof.
  intros line. split.
  - unfold prechop_line.
    pose proof (prechop_loop_truthy line EmptyString false [] EmptyString
                  (Forall_nil_2 _)) as H.
    destruct (prechop_loop line EmptyString false [] EmptyString)
      as [components comp]. cbn [fst] in H.
    destruct (truthy comp) eqn:Ht; [| exact H].
    apply Forall_app. split; [exact H | constructor; [exact Ht | constructor]].
  - intros Hq. unfold prechop_line.
    destruct (prechop_loop_plain line [] EmptyString Hq (Forall_nil_2 _) eq_refl)
      as [Hcs Hcomp].
    destruct (prechop_loop line EmptyString false [] EmptyString)
      as [components comp]. cbn [fst snd] in Hcs, Hcomp.
    destruct (truthy comp); [| exact Hcs].
    apply Forall_app. split; [exact Hcs | constructor; [exact Hcomp | constructor]].
Qed.

Lemma X25_segments_are_clean_witness :
  Forall (fun s => forall_chars
                     (fun c => negb (is_separator c || ends_scan c)) s = true)
         (prechop_line "led red, on  # comment").
Proof.
  apply (proj2 (X25_segments_are_clean "led red, on  # comment")). reflexivity.
Defined.

Lemma prechop_loop_newline (a b : string) :
  forall in_string in_escape components comp,
    prechop_loop (a +:+ String newline b) in_string in_escape components comp =
    prechop_loop a in_string in_escape components comp.
Proof.
  induction a as [| c a IH]; intros in_string in_escape components comp.
  - reflexivity.
  - rewrite append_cons. cbn [prechop_loop].
    repeat match goal with
           | |- (if ?b then _ else _) = (if ?b then _ else _) => destruct b
           | |- prechop_loop (a +:+ _) _ _ _ _ = _ => apply IH
           | |- _ => reflexivity
           end.
Qed.

Lemma prechop_loop_comment (a b : string) :
  forall components comp,
    char_in dquote a = false ->
    prechop_loop (a +:+ String "#" b) EmptyString false components comp =
    prechop_loop a EmptyString false components comp.
Proof.
  induction a as [| c a IH]; intros components comp Hq.
  - reflexivity.
  - rewrite append_cons. cbn [prechop_loop].
    cbn [char_in] in Hq. apply orb_false_iff in Hq as [Hc Hq].
    rewrite Ascii.eqb_sym in Hc.
    destruct (Ascii.eqb c newline); [reflexivity |].
    cbn [truthy andb negb]. rewrite andb_true_r.
    destruct (Ascii.eqb c "#"); [reflexivity |].
    rewrite Hc.
    destruct (Ascii.eqb c " " || Ascii.eqb c tab || Ascii.eqb c ",");
      apply IH; exact Hq.
Qed.

(** X26. The scan stops at the end of the line and at a comment: what
    follows the first newline never changes the segments, and neither
    does what follows a [#] that comes after a text without double
    quotes. *)
Theorem X26_text_after_newline_or_comment_is_ignored :
  forall a b : string,
    prechop_line (a +:+ String newline b) = prechop_line a
    /\ (char_in dquote a = false ->
        prechop_line (a +:+ String "#" b) = prechop_line a).
Proof.
  intros a b. split.
  - unfold prechop_line. rewrite prechop_loop_newline. reflexivity.
  - intros Hq. unfold prechop_line. rewrite prechop_loop_comment by exact Hq.
    reflexivity.
Qed.

Lemma X26_text_after_newline_or_comment_is_ignored_witness :
  prechop_line ("led red" +:+ String "#" " sets the led") = prechop_line "led red".
Proof.
  apply (proj2 (X26_text_after_newline_or_comment_is_ignored
                  "led red" " sets the led")).
  reflexivity.
Defined.

(** ** Tokens *)

Lemma Forall_snoc {A} (P : A -> Prop) (l : list A) (x : A) :
  Forall P l -> P x -> Forall P (l ++ [x]).
Proof.
  intros Hl Hx. apply Forall_app. split; [exact Hl |].
  constructor; [exact Hx | constructor].
Qed.

Lemma chop_loop_well_kinded (segs : list string) :
  forall words st ws e,
    Forall (fun w => well_kinded w = true) words ->
    chop_loop segs words st = Ok (ws, e) ->
    Forall (fun w => well_kinded w = true) ws.
Proof.
  induction segs as [| s segs IH]; intros words st ws e Hws; cbn [chop_loop].
  - intros [= <- _]. exact Hws.
  - repeat match goal with
           | |- Ok _ = Ok _ -> _ => intros [= <- _]; exact Hws
           | |- chop_loop segs ?w st = Ok _ -> _ =>
               apply IH; first [exact Hws | apply Forall_snoc; [exact Hws | reflexivity]]
           | |- rbind ?r _ = Ok _ -> _ =>
               destruct r; cbn [rbind]; [| intros H; discriminate H]
           | |- (if ?b then _ else _) = Ok _ -> _ => destruct b
           end.
Qed.

(** X27. Every token of a tokenized line holds a value of the Python type
    its kind stands for.  A numeric constant holds an integer: [num]
    raises [AttributeError] on it and [anum] returns the integer.  A
    module/register token holds the resolved address, which [amodreg]
    returns in any table.  Every other token holds text and is a label,
    an operator, a string, a variable or an argument. *)
Theorem X27_tokens_hold_typed_values :
  forall (line : string) (st : table) (ws : list word) (w : word),
    chop_line line st = Ok ws ->
    In w ws ->
    match value_ w with
    | VInt n =>
        (type_ w = "const" /\ num w = Raise AttributeError /\
         anum w = Ok (VInt n))
        \/ (type_ w = "modreg" /\ forall st', amodreg w st' = Ok (VInt n))
    | VStr _ => In (type_ w) ["label"; "op"; "string"; "var"; "arg"]
    end.
Proof.
  intros line st ws w Hchop Hin. unfold chop_line in Hchop.
  destruct (chop_loop (prechop_line line) [] st) as [[ws' e] | err] eqn:Hloop;
    cbn [rbind] in Hchop; [| discriminate Hchop].
  inversion Hchop; subst ws'. clear Hchop.
  pose proof (chop_loop_well_kinded _ _ _ _ _ (Forall_nil_2 _) Hloop) as Hall.
  rewrite Forall_forall in Hall. specialize (Hall w).
  assert (well_kinded w = true) as Hk by (apply Hall, list_elem_of_In, Hin).
  clear Hall. destruct w as [kind [n | s]]; unfold well_kinded in Hk;
    cbn [value_ type_ existsb] in *.
  - rewrite orb_false_r in Hk. apply orb_true_iff in Hk.
    destruct Hk as [Hk | Hk]; apply String.eqb_eq in Hk; subst kind.
    + left. repeat split.
    + right. split; [reflexivity |]. intros st'. reflexivity.
  - rewrite orb_false_r in Hk.
    repeat (apply orb_true_iff in Hk; destruct Hk as [Hk | Hk];
            [apply String.eqb_eq in Hk; subst kind; cbn [In]; auto 10 |]).
    apply String.eqb_eq in Hk; subst kind; cbn [In]; auto 10.
Qed.

Lemma X27_tokens_hold_typed_values_witness :
  (type_ (mkWord "const" (VInt 65)) = "const" /\
   num (mkWord "const" (VInt 65)) = Raise AttributeError /\
   anum (mkWord "const" (VInt 65)) = Ok (VInt 65))
  \/ (type_ (mkWord "const" (VInt 65)) = "modreg" /\
      forall st', amodreg (mkWord "const" (VInt 65)) st' = Ok (VInt 65)).
Proof.
  apply (X27_tokens_hold_typed_values "ld $65" reset_table
           [mkWord "op" (VStr "ld"); mkWord "const" (VInt 65)]
           (mkWord "const" (VInt 65))).
  - reflexivity.
  - right. left. reflexivity.
Defined.

Lemma operator_first_snoc (words : list word) (w : word) :
  operator_first words ->
  match words with
  | [] => type_ w = "op" \/ type_ w = "label"
  | _ :: _ => String.eqb (type_ w) "op" = false
  end ->
  operator_first (words ++ [w]).
Proof.
  destruct words as [| w0 rest]; cbn.
  - intros _ H. split; [exact H | constructor].
  - intros [H0 Hrest] Hw. split; [exact H0 |].
    apply Forall_snoc; assumption.
Qed.

Lemma chop_loop_operator_first (segs : list string) :
  forall words st ws e,
    operator_first words ->
    chop_loop segs words st = Ok (ws, e) ->
    operator_first ws.
Proof.
  induction segs as [| s segs IH]; intros words st ws e Hws; cbn [chop_loop].
  - intros [= <- _]. exact Hws.
  - destruct (negb (truthy s)); [apply IH; exact Hws |].
    destruct (startswith s "#"); [intros [= <- _]; exact Hws |].
    destruct (startswith s ":").
    { apply IH. apply operator_first_snoc; [exact Hws |].
      destruct words; [right |]; reflexivity. }
    destruct words as [| w0 rest].
    { apply IH. apply (operator_first_snoc []); [exact Hws | left; reflexivity]. }
    repeat match goal with
           | |- chop_loop segs (w0 :: rest) st = Ok _ -> _ => apply IH; exact Hws
           | |- chop_loop segs ((w0 :: rest) ++ [_]) st = Ok _ -> _ =>
               apply IH; apply operator_first_snoc; [exact Hws | reflexivity]
           | |- rbind ?r _ = Ok _ -> _ =>
               destruct r; cbn [rbind]; [| intros H; discriminate H]
           | |- (if ?b then _ else _) = Ok _ -> _ => destruct b
           end.
Qed.

(** X28. In a tokenized line only the first token can be an operator, and
    the first token is an operator or a label: after a leading label no
    operator follows, the next plain segment becoming an argument. *)
Theorem X28_operator_comes_first :
  forall (line : string) (st : table) (ws : list word),
    chop_line line st = Ok ws ->
    match ws with
    | [] => True
    | w :: rest =>
        (type_ w = "op" \/ type_ w = "label") /\
        Forall (fun w' => String.eqb (type_ w') "op" = false) rest
    end.
Proof.
  intros line st ws Hchop. unfold chop_line in Hchop.
  destruct (chop_loop (prechop_line line) [] st) as [[ws' e] | err] eqn:Hloop;
    cbn [rbind] in Hchop; [| discriminate Hchop].
  inversion Hchop; subst ws'.
  exact (chop_loop_operator_first _ [] st ws e I Hloop).
Qed.

Lemma X28_operator_comes_first_witness :
  (type_ (mkWord "label" (VStr "loop")) = "op" \/
   type_ (mkWord "label" (VStr "loop")) = "label") /\
  Forall (fun w' => String.eqb (type_ w') "op" = false)
         [mkWord "arg" (VStr "add"); mkWord "const" (VInt 1)].
Proof.
  apply (X28_operator_comes_first ":loop add $1" reset_table
           [mkWord "label" (VStr "loop"); mkWord "arg" (VStr "add");
            mkWord "const" (VInt 1)]).
  reflexivity.
Defined.

(** ** How the tokenizer stops without returning *)










(** ** Printing a list of words *)

Lemma append_assoc_string (a b c : string) : (a +:+ b) +:+ c = a +:+ b +:+ c.
Proof.
  induction a as [| x a IH]; [reflexivity |].
  rewrite !append_cons, IH. reflexivity.
Qed.

Lemma drop_last_app (s t : string) : drop_last (String.length t) (s +:+ t) = s.
Proof.
  unfold drop_last.
  assert (String.length (s +:+ t) = (String.length s + String.length t)%nat)
    as ->.
  { induction s as [| x s IH]; [reflexivity |].
    rewrite append_cons. cbn [String.length]. rewrite IH. reflexivity. }
  replace (String.length s + String.length t - String.length t)%nat
    with (String.length s) by lia.
  induction s as [| x s IH].
  - destruct t; reflexivity.
  - rewrite append_cons. cbn [String.length substring]. rewrite IH. reflexivity.
Qed.

Lemma append_nil_r (s : string) : s +:+ EmptyString = s.
Proof.
  induction s as [| x s IH]; [reflexivity |].
  rewrite append_cons, IH. reflexivity.
Qed.

Lemma format_fold (str_word : word -> string) (wlist : list word) :
  forall output,
    fold_left (fun output w => output +:+ str_word w +:+ ", ") wlist output =
    output +:+ fold_right (fun w acc => str_word w +:+ ", " +:+ acc)
                          EmptyString wlist.
Proof.
  induction wlist as [| w wlist IH]; intros output; cbn [fold_left fold_right].
  - rewrite append_nil_r. reflexivity.
  - rewrite IH, !append_assoc_string. reflexivity.
Qed.

Lemma fold_join (str_word : word -> string) (wlist : list word) :
  wlist <> [] ->
  fold_right (fun w acc => str_word w +:+ ", " +:+ acc) EmptyString wlist =
  join_comma (map str_word wlist) +:+ ", ".
Proof.
  induction wlist as [| w wlist IH]; [congruence |]. intros _.
  destruct wlist as [| w' wlist'].
  - cbn. rewrite append_nil_r. reflexivity.
  - cbn [fold_right map join_comma]. cbn [fold_right map] in IH.
    rewrite IH by discriminate. rewrite !append_assoc_string. reflexivity.
Qed.

(** X30. [format_word_list] prints the words between brackets, separated
    by a comma and a space, with nothing after the last one: the two
    characters it cuts from the end are the separator the loop wrote after
    the last word, and for the empty list it cuts nothing. *)
Theorem X30_format_word_list_joins :
  forall (str_word : word -> string) (wlist : list word),
    format_word_list str_word wlist =
    "[" +:+ join_comma (map str_word wlist) +:+ "]".
Proof.
  intros str_word wlist. unfold format_word_list. cbv zeta.
  destruct wlist as [| w wlist]; [reflexivity |].
  rewrite format_fold, fold_join by discriminate.
  rewrite <- append_assoc_string.
  change 2%nat with (String.length ", ").
  rewrite drop_last_app. reflexivity.
Qed.
